(** * lazy-img: the visibility-detection core of [src/lazyImg.ts]

    A shallow embedding of the rate limiters ([debounce], [throttle]), the
    scroll-container resolution ([getScrollParent]) and the life cycle of the
    [LazyImg] element ([connectedCallback], [disconnectedCallback],
    [handleScroll], [onIntersection], ...), together with the host facilities
    they call: the timer queue of [window.setTimeout]/[clearTimeout], the
    listener registry of [addEventListener]/[removeEventListener], the
    [IntersectionObserver] and the layout queries.

    Times are integers of milliseconds ([Date.now()]); lengths of CSS pixels
    are rationals, which order exactly as the finite doubles of the source. *)

From Stdlib Require Import ZArith QArith List String Bool Lia Lqa.
Import ListNotations.

Local Open Scope Z_scope.

(* ================================================================== *)
(** ** The event loop: clock, timer queue and the rate-limiting closure *)
(* ================================================================== *)

Module Loop.
Section WithPage.

(** [Args] is what a limited callback is called with ([...args]); [S] is
    the state the wrapped callback acts on.  The wrapped callback has no
    access to the clock, the timer queue or the closure's variables. *)
Context {Args S : Type}.

(** The two arrow functions handed to [window.setTimeout]:
    - [DebounceTask args]: [() => { callback(...args); }]
    - [ThrottleTask args]:
      [() => { lastCall = Date.now(); callback(...args); timeoutId = null; }] *)
Inductive Task : Type :=
| DebounceTask (args : Args)
| ThrottleTask (args : Args).

(** A pending timer.  Timer ids are the positive integers that
    [setTimeout] returns, so an id is never falsy. *)
Record Timer : Type := mkTimer {
  timer_id : positive;
  timer_due : Z;
  timer_task : Task
}.

(** The closure returned by [debounce(callback, delay)] or by
    [throttle(callback, delay)]: the captured [callback] and [delay], and
    the closure's mutable variables ([timerId], resp. [lastCall] and
    [timeoutId]). *)
Inductive Limiter : Type :=
| Debounce (callback : Args -> S -> S) (delay : Z)
           (timerId : option positive)
| Throttle (callback : Args -> S -> S) (delay : Z)
           (lastCall : Z) (timeoutId : option positive).

(** [function debounce(callback, delay) { let timerId; return ... }] *)
Definition debounce (callback : Args -> S -> S) (delay : Z) : Limiter :=
  Debounce callback delay None.

(** [function throttle(callback, delay) { let lastCall = 0;
     let timeoutId = null; return ... }] *)
Definition throttle (callback : Args -> S -> S) (delay : Z) : Limiter :=
  Throttle callback delay 0 None.

(** The state of the event loop: [Date.now()], the pending timers in the
    order they were set, the next timer id, the one rate-limiting closure
    the page has created (if any) and the page itself. *)
Record t : Type := mk {
  now : Z;
  timers : list Timer;
  nextTimerId : positive;
  closure : option Limiter;
  page : S
}.

Definition set_now (v : Z) (w : t) : t :=
  mk v (timers w) (nextTimerId w) (closure w) (page w).
Definition set_timers (v : list Timer) (w : t) : t :=
  mk (now w) v (nextTimerId w) (closure w) (page w).
Definition set_closure (v : option Limiter) (w : t) : t :=
  mk (now w) (timers w) (nextTimerId w) v (page w).
Definition set_page (v : S) (w : t) : t :=
  mk (now w) (timers w) (nextTimerId w) (closure w) v.
Definition on_page (f : S -> S) (w : t) : t := set_page (f (page w)) w.

(** The conversion of the [timeout] argument of [window.setTimeout] to
    its declared type [long]: the integer is reduced modulo 2^32 into the
    range of the signed 32-bit integers. *)
Definition toInt32 (z : Z) : Z :=
  (z + 2147483648) mod 4294967296 - 2147483648.

(** The delay a timer gets for the argument [delay]: the converted value,
    and 0 when that is negative. *)
Definition timeoutOf (delay : Z) : Z := Z.max 0 (toInt32 delay).

(** [window.setTimeout(task, delay)]: queues the task [timeoutOf delay]
    milliseconds from now and returns its id. *)
Definition setTimeout (task : Task) (delay : Z) (w : t) : positive * t :=
  let id := nextTimerId w in
  (id, mk (now w)
          (timers w ++ [mkTimer id (now w + timeoutOf delay) task])
          (Pos.succ id) (closure w) (page w)).

(** [clearTimeout(id)]: an undefined id, or the id of a timer that is no
    longer pending, is ignored. *)
Definition clearTimeout (id : option positive) (w : t) : t :=
  match id with
  | None => w
  | Some i =>
      set_timers
        (filter (fun tm => negb (Pos.eqb (timer_id tm) i)) (timers w)) w
  end.

(** A call [limited(...args)] of the closure that [debounce] or [throttle]
    returned. *)
Definition call (args : Args) (w : t) : t :=
  match closure w with
  | None => w
  | Some (Debounce callback delay timerId) =>
      let w1 := clearTimeout timerId w in
      let '(id, w2) := setTimeout (DebounceTask args) delay w1 in
      set_closure (Some (Debounce callback delay (Some id))) w2
  | Some (Throttle callback delay lastCall timeoutId) =>
      let now_ := now w in
      let remaining := delay - (now_ - lastCall) in
      if delay <=? now_ - lastCall then
        on_page (callback args)
          (set_closure (Some (Throttle callback delay now_ timeoutId)) w)
      else
        match timeoutId with
        | None =>
            let '(id, w1) := setTimeout (ThrottleTask args) remaining w in
            set_closure
              (Some (Throttle callback delay lastCall (Some id))) w1
        | Some _ => w
        end
  end.

(** The body of a timer's arrow function. *)
Definition runTask (task : Task) (w : t) : t :=
  match task, closure w with
  | DebounceTask args, Some (Debounce callback _ _) =>
      on_page (callback args) w
  | ThrottleTask args, Some (Throttle callback delay _ _) =>
      on_page (callback args)
        (set_closure (Some (Throttle callback delay (now w) None)) w)
  | _, _ => w
  end.

Definition findTimer (id : positive) (w : t) : option Timer :=
  find (fun tm => Pos.eqb (timer_id tm) id) (timers w).

(** The event loop runs timer [id]: nothing happens unless that timer is
    pending and due; otherwise it leaves the queue and its task runs. *)
Definition fire (id : positive) (w : t) : t :=
  match findTimer id w with
  | None => w
  | Some tm =>
      if timer_due tm <=? now w
      then runTask (timer_task tm) (clearTimeout (Some id) w)
      else w
  end.

(** Time passes. *)
Definition advance (dt : N) (w : t) : t := set_now (now w + Z.of_N dt) w.

End WithPage.

Arguments Task : clear implicits.
Arguments Timer : clear implicits.
Arguments Limiter : clear implicits.
Arguments t : clear implicits.

End Loop.

(* ================================================================== *)
(** ** The document: elements, computed styles, layout, listeners *)
(* ================================================================== *)

(** [s.includes(pat)]: [pat] occurs in [s] as a substring. *)
Fixpoint includes (pat s : string) : bool :=
  if String.prefix pat s then true
  else match s with
       | EmptyString => false
       | String _ s' => includes pat s'
       end.

(** [/(auto|scroll)/.test(s)] *)
Definition auto_or_scroll (s : string) : bool :=
  includes "auto" s || includes "scroll" s.

(** What [getComputedStyle(el)] gives for the three overflow properties. *)
Record CSSStyleDeclaration : Type := mkStyle {
  overflow : string;
  overflowY : string;
  overflowX : string
}.

(** An element of the document tree with its identity, its computed style
    and its [parentElement] ([None] is [null]).  The source types the
    ancestors as [HTMLElement]; at run time [parentElement] gives any
    [Element], and [html] says whether this one passes
    [instanceof HTMLElement] (an SVG [foreignObject] does not). *)
#[local] Unset Elimination Schemes.
Inductive HTMLElement : Type :=
| Element (nodeId : nat) (html : bool) (style : CSSStyleDeclaration)
          (parentElement : option HTMLElement).
#[local] Set Elimination Schemes.

Definition nodeId (e : HTMLElement) : nat :=
  match e with Element i _ _ _ => i end.
Definition isHTML (e : HTMLElement) : bool :=
  match e with Element _ h _ _ => h end.
Definition getComputedStyle (e : HTMLElement) : CSSStyleDeclaration :=
  match e with Element _ _ st _ => st end.
Definition parentElement (e : HTMLElement) : option HTMLElement :=
  match e with Element _ _ _ p => p end.

(** The type [Window | HTMLElement] of the field [scrollParent]; it is also
    the type of the targets listeners are registered on. *)
Inductive ScrollParent : Type :=
| Window
| Node (e : HTMLElement).

(** [sp instanceof HTMLElement] *)
Definition instanceofHTMLElement (sp : ScrollParent) : bool :=
  match sp with
  | Window => false
  | Node e => isHTML e
  end.

(** Object identity of event targets: two elements are the same node when
    their ids agree. *)
Definition same_target (a b : ScrollParent) : bool :=
  match a, b with
  | Window, Window => true
  | Node x, Node y => Nat.eqb (nodeId x) (nodeId y)
  | _, _ => false
  end.

Inductive EventType : Type := scroll | resize.

Definition same_type (a b : EventType) : bool :=
  match a, b with
  | scroll, scroll | resize, resize => true
  | _, _ => false
  end.

(** The event object a listener is called with. *)
Inductive DOMEvent : Type := ScrollEvent | ResizeEvent.

(** The value of [this.scrollAndResizeCallback] when it is set: a reference
    to the closure that [handle(...)] returned, which lives in the loop. *)
Inductive EventListener : Type := LimitedCallback.

Record DOMRect : Type := mkRect {
  top : Q;
  left : Q;
  bottom : Q;
  right : Q
}.

(** The layout at one moment: [this.getBoundingClientRect()], the
    [getBoundingClientRect()] of [this.scrollParent] when that is an
    element, [window.innerHeight] and [window.innerWidth]. *)
Record Layout : Type := mkLayout {
  rect : DOMRect;
  parentRect : DOMRect;
  innerHeight : Q;
  innerWidth : Q
}.

(** [new IntersectionObserver(this.onIntersection, { rootMargin })]; it
    delivers entries only while it observes a target. *)
Record IntersectionObserver : Type := mkObserver {
  rootMargin : Q;            (* in px *)
  observing : bool
}.

(** The calls that leave the element, in the order they are made. *)
Inductive Effect : Type :=
| LoadImage                                          (* this.loadImage() *)
| AddEventListener (target : ScrollParent) (type : EventType)
| RemoveEventListener (target : ScrollParent) (type : EventType)
| Observe                                            (* observer.observe(this) *)
| Disconnect.                                        (* observer.disconnect() *)

(** The [LazyImg] element and the part of the document it touches. *)
Record Page : Type := mkPage {
  (* element properties *)
  threshold : Q;
  useIntersectionObserver : bool;
  visibleByDefault : bool;
  delayMethod : string;
  delayTime : Z;
  (* internal state *)
  observer : option IntersectionObserver;
  scrollAndResizeCallback : option EventListener;
  imageVisible : bool;
  scrollParent : ScrollParent;
  (* the element as a node, and the host *)
  self : HTMLElement;
  hasUpdated : bool;                  (* Lit: the first update has run *)
  intersectionObserverInWindow : bool; (* 'IntersectionObserver' in window *)
  layout : Layout;
  listeners : list (ScrollParent * EventType);
  log : list Effect
}.

Definition set_threshold (v : Q) (p : Page) : Page :=
  mkPage v (useIntersectionObserver p) (visibleByDefault p) (delayMethod p)
    (delayTime p) (observer p) (scrollAndResizeCallback p) (imageVisible p)
    (scrollParent p) (self p) (hasUpdated p)
    (intersectionObserverInWindow p) (layout p) (listeners p) (log p).
Definition set_observer (v : option IntersectionObserver) (p : Page) : Page :=
  mkPage (threshold p) (useIntersectionObserver p) (visibleByDefault p)
    (delayMethod p) (delayTime p) v (scrollAndResizeCallback p)
    (imageVisible p) (scrollParent p) (self p) (hasUpdated p)
    (intersectionObserverInWindow p) (layout p) (listeners p) (log p).
Definition set_scrollAndResizeCallback (v : option EventListener) (p : Page)
  : Page :=
  mkPage (threshold p) (useIntersectionObserver p) (visibleByDefault p)
    (delayMethod p) (delayTime p) (observer p) v (imageVisible p)
    (scrollParent p) (self p) (hasUpdated p)
    (intersectionObserverInWindow p) (layout p) (listeners p) (log p).
Definition set_imageVisible (v : bool) (p : Page) : Page :=
  mkPage (threshold p) (useIntersectionObserver p) (visibleByDefault p)
    (delayMethod p) (delayTime p) (observer p) (scrollAndResizeCallback p) v
    (scrollParent p) (self p) (hasUpdated p)
    (intersectionObserverInWindow p) (layout p) (listeners p) (log p).
Definition set_scrollParent (v : ScrollParent) (p : Page) : Page :=
  mkPage (threshold p) (useIntersectionObserver p) (visibleByDefault p)
    (delayMethod p) (delayTime p) (observer p) (scrollAndResizeCallback p)
    (imageVisible p) v (self p) (hasUpdated p)
    (intersectionObserverInWindow p) (layout p) (listeners p) (log p).
Definition set_hasUpdated (v : bool) (p : Page) : Page :=
  mkPage (threshold p) (useIntersectionObserver p) (visibleByDefault p)
    (delayMethod p) (delayTime p) (observer p) (scrollAndResizeCallback p)
    (imageVisible p) (scrollParent p) (self p) v
    (intersectionObserverInWindow p) (layout p) (listeners p) (log p).
Definition set_layout (v : Layout) (p : Page) : Page :=
  mkPage (threshold p) (useIntersectionObserver p) (visibleByDefault p)
    (delayMethod p) (delayTime p) (observer p) (scrollAndResizeCallback p)
    (imageVisible p) (scrollParent p) (self p) (hasUpdated p)
    (intersectionObserverInWindow p) v (listeners p) (log p).
Definition set_listeners (v : list (ScrollParent * EventType)) (p : Page)
  : Page :=
  mkPage (threshold p) (useIntersectionObserver p) (visibleByDefault p)
    (delayMethod p) (delayTime p) (observer p) (scrollAndResizeCallback p)
    (imageVisible p) (scrollParent p) (self p) (hasUpdated p)
    (intersectionObserverInWindow p) (layout p) v (log p).
Definition set_log (v : list Effect) (p : Page) : Page :=
  mkPage (threshold p) (useIntersectionObserver p) (visibleByDefault p)
    (delayMethod p) (delayTime p) (observer p) (scrollAndResizeCallback p)
    (imageVisible p) (scrollParent p) (self p) (hasUpdated p)
    (intersectionObserverInWindow p) (layout p) (listeners p) v.

Definition emit (e : Effect) (p : Page) : Page := set_log (log p ++ [e]) p.

Definition registered (target : ScrollParent) (type : EventType) (p : Page)
  : bool :=
  existsb (fun l => same_target (fst l) target && same_type (snd l) type)
          (listeners p).

(** [target.addEventListener(type, this.scrollAndResizeCallback, ...)]: a
    listener that is already registered is not registered again. *)
Definition addEventListener (target : ScrollParent) (type : EventType)
    (p : Page) : Page :=
  let p := emit (AddEventListener target type) p in
  if registered target type p then p
  else set_listeners (listeners p ++ [(target, type)]) p.

(** [target.removeEventListener(type, this.scrollAndResizeCallback)]:
    removing a listener that is not registered does nothing. *)
Definition removeEventListener (target : ScrollParent) (type : EventType)
    (p : Page) : Page :=
  let p := emit (RemoveEventListener target type) p in
  set_listeners
    (filter (fun l => negb (same_target (fst l) target
                            && same_type (snd l) type))
            (listeners p)) p.

(** [this.observer?.disconnect()] *)
Definition observer_disconnect (p : Page) : Page :=
  match observer p with
  | None => p
  | Some o =>
      emit Disconnect
        (set_observer (Some (mkObserver (rootMargin o) false)) p)
  end.

(* ================================================================== *)
(** ** The [LazyImg] element *)
(* ================================================================== *)

(** The world one element lives in: the event loop around its page.  The
    limited callback is called with the event object. *)
Definition World : Type := Loop.t DOMEvent Page.

(** The [while (parent)] loop of [getScrollParent], from [parent] upward. *)
Fixpoint scrollParentFrom (parent : HTMLElement) : ScrollParent :=
  match parent with
  | Element _ _ style up =>
      if auto_or_scroll
           (overflow style ++ overflowY style ++ overflowX style)
      then Node parent
      else match up with
           | None => Window
           | Some parent' => scrollParentFrom parent'
           end
  end.

(** [private getScrollParent(element: HTMLElement): HTMLElement | Window] *)
Definition getScrollParent (element : HTMLElement) : ScrollParent :=
  match parentElement element with
  | None => Window
  | Some parent => scrollParentFrom parent
  end.

(** [private loadImage()]: sets [imageVisible] and requests an update. *)
Definition loadImage (p : Page) : Page :=
  emit LoadImage (set_imageVisible true p).

(** [private removeScrollAndResizeListeners()] *)
Definition removeScrollAndResizeListeners (p : Page) : Page :=
  match scrollAndResizeCallback p with
  | None => p
  | Some _ =>
      let p := removeEventListener (scrollParent p) scroll p in
      let p := removeEventListener Window scroll p in
      let p := removeEventListener Window resize p in
      set_scrollAndResizeCallback None p
  end.

(** The value [isCurrentlyVisible] that [handleScroll] computes from the
    layout once it is past its guard. *)
Definition isCurrentlyVisible (p : Page) : bool :=
  let rect := rect (layout p) in
  if instanceofHTMLElement (scrollParent p) then
    let parentRect := parentRect (layout p) in
    let containerTop := top parentRect in
    let containerBottom := bottom parentRect in
    let containerLeft := left parentRect in
    let containerRight := right parentRect in
    let inVerticalView :=
      Qle_bool containerTop (bottom rect)
      && Qle_bool (top rect) containerBottom in
    let inHorizontalView :=
      Qle_bool containerLeft (right rect)
      && Qle_bool (left rect) containerRight in
    inVerticalView && inHorizontalView
  else
    let inVerticalView :=
      Qle_bool 0 (bottom rect)
      && Qle_bool (top rect) (innerHeight (layout p)) in
    let inHorizontalView :=
      Qle_bool 0 (right rect)
      && Qle_bool (left rect) (innerWidth (layout p)) in
    inVerticalView && inHorizontalView.

(** [private handleScroll = () => { ... }] *)
Definition handleScroll (p : Page) : Page :=
  if visibleByDefault p || imageVisible p then p
  else if isCurrentlyVisible p
       then removeScrollAndResizeListeners (loadImage p)
       else p.

(** [private onIntersection = (entries) => { ... }], given
    [entries[0].isIntersecting]. *)
Definition onIntersection (isIntersecting : bool) (p : Page) : Page :=
  if isIntersecting then observer_disconnect (loadImage p) else p.

(** [private initialiseObserver()] *)
Definition initialiseObserver (p : Page) : Page :=
  set_observer (Some (mkObserver (threshold p) false)) p.

(** [private initScrollAndResizeHandlers()].  [this.scrollParent] is an
    object, hence truthy: the scroll listener goes on it. *)
Definition initScrollAndResizeHandlers (w : World) : World :=
  let p := Loop.page w in
  let handle :=
    if String.eqb (delayMethod p) "debounce"
    then Loop.debounce else Loop.throttle in
  let w := Loop.set_closure
             (Some (handle (fun _ => handleScroll) (delayTime p))) w in
  let p := set_scrollAndResizeCallback (Some LimitedCallback) p in
  let p := set_scrollParent (getScrollParent (self p)) p in
  let p := addEventListener (scrollParent p) scroll p in
  let p := addEventListener Window resize p in
  Loop.set_page p w.

(** [connectedCallback()] *)
Definition connectedCallback (w : World) : World :=
  let p := Loop.page w in
  let w :=
    if visibleByDefault p then Loop.set_page (set_imageVisible true p) w
    else if useIntersectionObserver p && intersectionObserverInWindow p
         then Loop.set_page (initialiseObserver p) w
         else initScrollAndResizeHandlers w in
  Loop.on_page handleScroll w.

(** [disconnectedCallback()] *)
Definition disconnectedCallback (p : Page) : Page :=
  removeScrollAndResizeListeners (observer_disconnect p).

(** [firstUpdated()] *)
Definition firstUpdated (p : Page) : Page :=
  match observer p with
  | None => p
  | Some o =>
      emit Observe (set_observer (Some (mkObserver (rootMargin o) true)) p)
  end.

(** What can happen to an element between its connection and the end of
    its life in the document it was connected to.  The element is connected
    once: a re-insertion, on which the DOM calls [connectedCallback] again,
    is not among these events. *)
Inductive Event : Type :=
| Advance (dt : N)               (* time passes *)
| TimerFires (id : positive)     (* the loop runs a due timer *)
| Relayout (l : Layout)          (* scrolling or resizing moved things *)
| Scrolled (target : ScrollParent) (* a scroll event at [target] *)
| Resized                        (* a resize event at the window *)
| Intersection (isIntersecting : bool) (* the observer reports entries *)
| Updated                        (* Lit completes an update *)
| Disconnected.                  (* the element leaves the document *)

Definition step (e : Event) (w : World) : World :=
  let p := Loop.page w in
  match e with
  | Advance dt => Loop.advance dt w
  | TimerFires id => Loop.fire id w
  | Relayout l => Loop.on_page (set_layout l) w
  | Scrolled target =>
      if registered target scroll p then Loop.call ScrollEvent w else w
  | Resized =>
      if registered Window resize p then Loop.call ResizeEvent w else w
  | Intersection isIntersecting =>
      match observer p with
      | Some o =>
          if observing o
          then Loop.on_page (onIntersection isIntersecting) w
          else w
      | None => w
      end
  | Updated =>
      if hasUpdated p then w
      else Loop.on_page (fun p => firstUpdated (set_hasUpdated true p)) w
  | Disconnected => Loop.on_page disconnectedCallback w
  end.

Definition run (es : list Event) (w : World) : World :=
  fold_left (fun w e => step e w) es w.

(** How often [loadImage] has been invoked. *)
Definition is_LoadImage (e : Effect) : bool :=
  match e with LoadImage => true | _ => false end.
Definition loads (p : Page) : nat :=
  List.length (filter is_LoadImage (log p)).

(** A freshly constructed element, before [connectedCallback]: the class's
    field initialisers ([observer] and [scrollAndResizeCallback] undefined,
    [imageVisible = false], [scrollParent = window]) around the attribute
    values, in a document where nothing is registered yet. *)
Definition newPage (threshold : Q) (useIntersectionObserver : bool)
    (visibleByDefault : bool) (delayMethod : string) (delayTime : Z)
    (self : HTMLElement) (intersectionObserverInWindow : bool)
    (layout : Layout) : Page :=
  mkPage threshold useIntersectionObserver visibleByDefault delayMethod
    delayTime None None false Window self false
    intersectionObserverInWindow layout [] [].

(** The loop at time [t0] with no timer pending and no closure created. *)
Definition newLoop {Args S : Type} (t0 : Z) (s : S) : Loop.t Args S :=
  Loop.mk t0 [] 1%positive None s.

(** The strategy [connectedCallback] selects is the observer one. *)
Definition observerSelected (p : Page) : bool :=
  negb (visibleByDefault p)
  && (useIntersectionObserver p && intersectionObserverInWindow p).

(* ================================================================== *)
(** ** Specification-side notions *)
(* ================================================================== *)



(** The viewport extent (0,0)-(innerWidth,innerHeight). *)
Definition viewportRect (l : Layout) : DOMRect :=
  mkRect 0 0 (innerHeight l) (innerWidth l).

(** The container's rectangle: that of the scroll parent when it is an
    HTML element, the viewport extent otherwise. *)
Definition containerRect (p : Page) : DOMRect :=
  if instanceofHTMLElement (scrollParent p)
  then parentRect (layout p)
  else viewportRect (layout p).


(** The page of the overlap examples: an element with the given rectangle
    under the polling strategy, against a viewport of the given size. *)
Definition viewportPage (r : DOMRect) (height width : Q) : Page :=
  newPage 0 false false "debounce" 0
    (Element 0 true (mkStyle EmptyString EmptyString EmptyString) None)
    false (mkLayout r (mkRect 0 0 0 0) height width).


(** The ancestor chain from [e] upward, nearest first. *)
Fixpoint chainFrom (e : HTMLElement) : list HTMLElement :=
  match e with
  | Element _ _ _ up =>
      e :: match up with
           | None => []
           | Some parent => chainFrom parent
           end
  end.

(** The ancestors of [element], starting at its parent. *)
Definition ancestors (element : HTMLElement) : list HTMLElement :=
  match parentElement element with
  | None => []
  | Some parent => chainFrom parent
  end.

(** An ancestor permits scrolling: its computed [overflow], [overflowY] or
    [overflowX] matches "auto" or "scroll". *)
Definition scrollable (e : HTMLElement) : bool :=
  let style := getComputedStyle e in
  auto_or_scroll (overflow style)
  || auto_or_scroll (overflowY style)
  || auto_or_scroll (overflowX style).

(** Container resolution as the specification words it: the first ancestor,
    walking upward from the parent, that permits scrolling; the global
    viewport when there is none. *)
Definition resolve (element : HTMLElement) : ScrollParent :=
  match find scrollable (ancestors element) with
  | Some a => Node a
  | None => Window
  end.

(** The computed values of [overflow-x] and [overflow-y] (the empty string
    is what a detached element reports). *)
Definition overflowKeywords : list string :=
  [EmptyString; "visible"; "hidden"; "clip"; "scroll"; "auto"]%string.

(** The computed values of the [overflow] shorthand: one keyword, or the
    two axes' keywords separated by a space. *)
Definition overflowShorthands : list string :=
  overflowKeywords
  ++ flat_map (fun x => map (fun y => (x ++ " " ++ y)%string) overflowKeywords)
       overflowKeywords.

Definition computedStyle (style : CSSStyleDeclaration) : Prop :=
  In (overflow style) overflowShorthands
  /\ In (overflowY style) overflowKeywords
  /\ In (overflowX style) overflowKeywords.

(** The document of the container-resolution example: the element inside a
    [div] with [overflow:auto] inside a [div] without overflow. *)
Definition outerDiv : HTMLElement :=
  Element 1 true (mkStyle "visible" "visible" "visible") None.
Definition innerDiv : HTMLElement :=
  Element 2 true (mkStyle "auto" "auto" "auto") (Some outerDiv).
Definition nestedImg : HTMLElement :=
  Element 3 true (mkStyle "visible" "visible" "visible") (Some innerDiv).

(** What can happen to a loop on its own: the limited callback is called,
    the loop runs a timer, time passes. *)
Inductive LoopOp (Args : Type) : Type :=
| Call (args : Args)
| Fire (id : positive)
| Wait (dt : N).

Arguments Call {Args} args.
Arguments Fire {Args} id.
Arguments Wait {Args} dt.

Definition exec {Args S : Type} (op : LoopOp Args) (w : Loop.t Args S)
  : Loop.t Args S :=
  match op with
  | Call args => Loop.call args w
  | Fire id => Loop.fire id w
  | Wait dt => Loop.advance dt w
  end.

Definition execAll {Args S : Type} (ops : list (LoopOp Args))
    (w : Loop.t Args S) : Loop.t Args S :=
  fold_left (fun w op => exec op w) ops w.

(** A loop at time [t0] whose closure is [handle(callback, interval)]. *)
Definition limited {Args S : Type}
    (handle : (Args -> S -> S) -> Z -> Loop.Limiter Args S)
    (callback : Args -> S -> S) (interval t0 : Z) (s : S) : Loop.t Args S :=
  Loop.set_closure (Some (handle callback interval)) (newLoop t0 s).

(** A callback that counts its invocations. *)
Definition counting : unit -> nat -> nat := fun _ n => S n.

(** [n] calls of the limited callback, [gap] milliseconds apart. *)
Fixpoint spacedCalls {S : Type} (n : nat) (gap : N) (w : Loop.t unit S)
  : Loop.t unit S :=
  match n with
  | O => w
  | 1%nat => Loop.call tt w
  | Datatypes.S n' => spacedCalls n' gap (Loop.advance gap (Loop.call tt w))
  end.

(** Under the throttle policy the trailing timer and the closure's
    [timeoutId] go together: either both are absent, or [timeoutId] names
    the one pending timer. *)
Definition throttleInv {Args S : Type} (w : Loop.t Args S) : Prop :=
  exists callback delay lastCall,
    (Loop.closure w = Some (Loop.Throttle callback delay lastCall None)
     /\ Loop.timers w = [])
    \/ (exists id due args,
           Loop.closure w
           = Some (Loop.Throttle callback delay lastCall (Some id))
           /\ Loop.timers w
              = [Loop.mkTimer id due (Loop.ThrottleTask args)]).

(** The loop of the throttle-timing example: a counting callback throttled
    with an interval of 300 ms, at time [t0]. *)
Definition throttled300 (t0 : Z) : Loop.t unit nat :=
  limited Loop.throttle counting 300 t0 0%nat.

(** Under the debounce policy at most one timer is pending, and then
    [timerId] names it. *)
Definition debounceInv {Args S : Type} (callback : Args -> S -> S)
    (delay : Z) (w : Loop.t Args S) : Prop :=
  exists timerId,
    Loop.closure w = Some (Loop.Debounce callback delay timerId)
    /\ (Loop.timers w = []
        \/ exists id due args,
             timerId = Some id
             /\ Loop.timers w
                = [Loop.mkTimer id due (Loop.DebounceTask args)]).

(** Under the throttle policy with interval 0 no timer is ever set, and the
    recorded time of the last run is not in the future. *)
Definition throttleZeroInv {Args S : Type} (callback : Args -> S -> S)
    (w : Loop.t Args S) : Prop :=
  exists lastCall,
    Loop.closure w = Some (Loop.Throttle callback 0 lastCall None)
    /\ lastCall <= Loop.now w
    /\ Loop.timers w = [].

(* ================================================================== *)
(** ** Activation and the states an element can reach *)
(* ================================================================== *)

(** A page as the constructor leaves it: the class's field initialisers,
    nothing registered and nothing logged. *)
Definition fresh (p : Page) : Prop :=
  observer p = None
  /\ scrollAndResizeCallback p = None
  /\ imageVisible p = false
  /\ scrollParent p = Window
  /\ hasUpdated p = false
  /\ listeners p = []
  /\ log p = [].

(** The element is connected at time [t0]. *)
Definition activate (t0 : Z) (p : Page) : World :=
  connectedCallback (newLoop t0 p).

(** The callback a closure wraps. *)
Definition callbackOf {Args S : Type} (l : Loop.Limiter Args S)
  : Args -> S -> S :=
  match l with
  | Loop.Debounce callback _ _ => callback
  | Loop.Throttle callback _ _ _ => callback
  end.

(** The only closure an element creates wraps [() => this.handleScroll()]. *)
Definition closureOK (w : World) : Prop :=
  match Loop.closure w with
  | None => True
  | Some l => callbackOf l = (fun _ => handleScroll)
  end.

(** The listeners of an element: none, or the scroll listener on the scroll
    parent and the resize listener on the window, both for the callback the
    element still holds. *)
Definition listenersInv (p : Page) : Prop :=
  listeners p = []
  \/ (scrollAndResizeCallback p = Some LimitedCallback
      /\ listeners p = [(scrollParent p, scroll); (Window, resize)]).

(** What ties the count of [loadImage] invocations to the element's state:
    with [visibleByDefault] there is none and no observer; otherwise the
    element is hidden with none or revealed with one, and an observer, when
    there is one, comes without a closure and observes only a hidden element
    after the first update, and a revealed element has had its first
    update. *)
Definition revealInv (vbd : bool) (w : World) : Prop :=
  let p := Loop.page w in
  visibleByDefault p = vbd
  /\ closureOK w
  /\ if vbd
     then loads p = 0%nat /\ observer p = None
     else ((imageVisible p = false /\ loads p = 0%nat)
           \/ (imageVisible p = true /\ loads p = 1%nat))
          /\ match observer p with
             | None => True
             | Some o =>
                 Loop.closure w = None
                 /\ (observing o = true ->
                     imageVisible p = false /\ hasUpdated p = true)
                 /\ (imageVisible p = true -> hasUpdated p = true)
             end.

(** [disconnectedCallback()], [n] times in a row. *)
Definition disposals (n : nat) (p : Page) : Page :=
  Nat.iter n disconnectedCallback p.

(** The page up to its log of calls. *)
Definition unlogged (p : Page) : Page := set_log [] p.

(** The calls [removeScrollAndResizeListeners] makes while the element
    holds its callback. *)
Definition removals (p : Page) : list Effect :=
  match scrollAndResizeCallback p with
  | None => []
  | Some _ =>
      [RemoveEventListener (scrollParent p) scroll;
       RemoveEventListener Window scroll;
       RemoveEventListener Window resize]
  end.

Definition is_Remove (e : Effect) : bool :=
  match e with RemoveEventListener _ _ => true | _ => false end.

(** An element outside a viewport of 300 x 100, under the polling strategy
    with the default debounce of 0 ms. *)
Definition hiddenPage : Page := viewportPage (mkRect 400 0 500 50) 300 100.

(** A layout that puts that element inside the viewport. *)
Definition inViewLayout : Layout :=
  mkLayout (mkRect 100 0 200 50) (mkRect 0 0 0 0) 300 100.

(** An element inside the viewport under the observer strategy. *)
Definition observedPage : Page :=
  newPage 0 true false "debounce" 0
    (Element 0 true (mkStyle EmptyString EmptyString EmptyString) None) true
    inViewLayout.

(** The element of [nestedImg] under the polling strategy: inside the
    window's viewport, but outside the rectangle of its scroll parent. *)
Definition nestedPage : Page :=
  newPage 0 false false "debounce" 0 nestedImg false
    (mkLayout (mkRect 100 0 200 50) (mkRect 1000 0 1200 50) 300 100).

(** What one event can do to the page of a world: nothing, a run of
    [handleScroll] through the closure, a new layout, an observer callback
    while the observer observes, the first update, or a disposal. *)
Inductive pageStep (w : World) : Page -> Prop :=
| ps_same : pageStep w (Loop.page w)
| ps_scroll :
    Loop.closure w <> None -> pageStep w (handleScroll (Loop.page w))
| ps_layout (l : Layout) : pageStep w (set_layout l (Loop.page w))
| ps_intersect (isIntersecting : bool) (o : IntersectionObserver) :
    observer (Loop.page w) = Some o -> observing o = true ->
    pageStep w (onIntersection isIntersecting (Loop.page w))
| ps_update :
    hasUpdated (Loop.page w) = false ->
    pageStep w (firstUpdated (set_hasUpdated true (Loop.page w)))
| ps_disconnect : pageStep w (disconnectedCallback (Loop.page w)).

(** The fields the count of reveals depends on. *)
Definition view (p : Page)
  : bool * bool * nat * option IntersectionObserver * bool :=
  (visibleByDefault p, imageVisible p, loads p, observer p, hasUpdated p).

(** [obs.observing = b] for the observer of the page, if there is one. *)
Definition observe_as (b : bool) (o : option IntersectionObserver)
  : option IntersectionObserver :=
  option_map (fun o => mkObserver (rootMargin o) b) o.

(* ================================================================== *)
(** ** Notions for the further properties *)
(* ================================================================== *)

(** The milliseconds that pass during a sequence of loop operations. *)
Fixpoint elapsed {Args : Type} (ops : list (LoopOp Args)) : Z :=
  match ops with
  | [] => 0
  | Wait dt :: ops => Z.of_N dt + elapsed ops
  | _ :: ops => elapsed ops
  end.

(** No operation of the sequence calls the limited callback. *)
Definition noCall {Args : Type} (ops : list (LoopOp Args)) : bool :=
  forallb (fun op => match op with Call _ => false | _ => true end) ops.

(** The world with the element's [threshold] attribute set to [t]. *)
Definition withThreshold (t : Q) (w : World) : World :=
  Loop.on_page (set_threshold t) w.

(** The test [getScrollParent] applies to an ancestor. *)
Definition matchesOverflow (e : HTMLElement) : bool :=
  let style := getComputedStyle e in
  auto_or_scroll (overflow style ++ overflowY style ++ overflowX style).

(** The calls [initScrollAndResizeHandlers] makes for scroll parent [sp]. *)
Definition registrations (sp : ScrollParent) : list Effect :=
  [AddEventListener sp scroll; AddEventListener Window resize].

(** An element outside the viewport under the observer strategy, with a
    threshold of 200 px. *)
Definition observedHiddenPage : Page :=
  newPage 200 true false "debounce" 0
    (Element 0 true (mkStyle EmptyString EmptyString EmptyString) None) true
    (mkLayout (mkRect 400 0 500 50) (mkRect 0 0 0 0) 300 100).

(** An element with [visibleByDefault]. *)
Definition defaultVisiblePage : Page :=
  newPage 0 true true "throttle" 300
    (Element 0 true (mkStyle EmptyString EmptyString EmptyString) None) true
    (mkLayout (mkRect 400 0 500 50) (mkRect 0 0 0 0) 300 100).

(** With [visibleByDefault] nothing is ever set up. *)
Definition inert (w : World) : Prop :=
  visibleByDefault (Loop.page w) = true
  /\ imageVisible (Loop.page w) = true
  /\ log (Loop.page w) = []
  /\ listeners (Loop.page w) = []
  /\ observer (Loop.page w) = None
  /\ scrollAndResizeCallback (Loop.page w) = None
  /\ Loop.closure w = None
  /\ Loop.timers w = [].

(** Under the observer strategy there is an observer with the threshold as
    root margin and nothing of the polling strategy. *)
Definition observerOnly (t : Q) (w : World) : Prop :=
  Loop.closure w = None
  /\ Loop.timers w = []
  /\ listeners (Loop.page w) = []
  /\ scrollAndResizeCallback (Loop.page w) = None
  /\ scrollParent (Loop.page w) = Window
  /\ exists o, observer (Loop.page w) = Some o /\ rootMargin o = t.

(** A revealed element, and an element with an observer, has no listener
    and holds no callback. *)
Definition noLeak (p : Page) : Prop :=
  imageVisible p = true \/ observer p <> None ->
  listeners p = [] /\ scrollAndResizeCallback p = None.

(** A polling element that still holds its callback is hidden and has its
    two listeners registered; it has no observer. *)
Definition heldInv (p : Page) : Prop :=
  observer p = None
  /\ visibleByDefault p = false
  /\ (scrollAndResizeCallback p = Some LimitedCallback ->
      listeners p = [(scrollParent p, scroll); (Window, resize)]
      /\ imageVisible p = false).


(* ================================================================== *)
(** ** Notions for the throttle window and the container of the check *)
(* ================================================================== *)

(** The loop is prompt along [ops]: whenever the limited callback is
    called, no pending timer is due already, that is, due timers have been
    run before the call. *)
Fixpoint prompt {Args S : Type} (ops : list (LoopOp Args))
    (w : Loop.t Args S) : bool :=
  match ops with
  | [] => true
  | op :: ops =>
      match op with
      | Call _ =>
          forallb (fun tm => Loop.now w <? Loop.timer_due tm)
                  (Loop.timers w)
      | _ => true
      end
      && prompt ops (exec op w)
  end.

(** Under the throttle policy on a prompt loop the pending trailing timer
    is due at the end of the current window. *)
Definition throttleWindowInv {Args S : Type} (callback : Args -> S -> S)
    (delay : Z) (w : Loop.t Args S) : Prop :=
  exists lastCall,
    lastCall <= Loop.now w
    /\ ((Loop.closure w
         = Some (Loop.Throttle callback delay lastCall None)
         /\ Loop.timers w = [])
        \/ exists id args,
             Loop.closure w
             = Some (Loop.Throttle callback delay lastCall (Some id))
             /\ Loop.timers w
                = [Loop.mkTimer id (lastCall + delay)
                     (Loop.ThrottleTask args)]).

(** The two-axis test of [handleScroll] for an element rectangle [r] and a
    container rectangle [c]. *)
Definition overlaps (r c : DOMRect) : bool :=
  (Qle_bool (top c) (bottom r) && Qle_bool (top r) (bottom c))
  && (Qle_bool (left c) (right r) && Qle_bool (left r) (right c)).

(** An element inside an SVG [foreignObject] that scrolls: its nearest
    scrollable ancestor is not an HTML element.  It lies in the window's
    viewport and outside the rectangle of that ancestor. *)
Definition foreignObject : HTMLElement :=
  Element 5 false (mkStyle "auto" "auto" "auto") (Some outerDiv).
Definition svgImg : HTMLElement :=
  Element 6 true (mkStyle "visible" "visible" "visible") (Some foreignObject).
Definition svgPage : Page :=
  newPage 0 false false "debounce" 0 svgImg false
    (mkLayout (mkRect 100 0 200 50) (mkRect 1000 0 1200 50) 300 100).

(** No event of the sequence is a disposal. *)
Definition noDisconnect (es : list Event) : bool :=
  forallb (fun e => match e with Disconnected => false | _ => true end) es.
(* ================================================================== *)
(** ** Overlap test of the polling strategy *)
(* ================================================================== *)

Section Overlap.

Local Open Scope Q_scope.



Lemma handleScroll_imageVisible (p : Page) :
  visibleByDefault p = false -> imageVisible p = false ->
  imageVisible (handleScroll p) = isCurrentlyVisible p.
Proof.
  intros V I. unfold handleScroll. rewrite V, I; cbn.
  destruct (isCurrentlyVisible p) eqn:E; [| assumption].
  unfold removeScrollAndResizeListeners.
  destruct (scrollAndResizeCallback (loadImage p)); reflexivity.
Qed.



End Overlap.

(* ================================================================== *)
(** ** Scroll-container resolution *)
(* ================================================================== *)

Section Resolution.

Lemma HTMLElement_ind (P : HTMLElement -> Prop) :
  (forall i h style, P (Element i h style None)) ->
  (forall i h style parent,
      P parent -> P (Element i h style (Some parent))) ->
  forall e, P e.
Proof.
  intros Hroot Hchild. fix IH 1.
  intros [i h style [parent |]]; [apply Hchild, IH | apply Hroot].
Qed.

(** On computed styles the test of the concatenation is the test of the
    three properties one by one: no match straddles two values. *)
Lemma concat_test_computed :
  forallb (fun o =>
    forallb (fun y =>
      forallb (fun x =>
        Bool.eqb (auto_or_scroll (o ++ y ++ x))
                 (auto_or_scroll o || auto_or_scroll y || auto_or_scroll x))
        overflowKeywords) overflowKeywords) overflowShorthands = true.
Proof. vm_compute. reflexivity. Qed.

Lemma concat_test_scrollable (e : HTMLElement) :
  computedStyle (getComputedStyle e) ->
  auto_or_scroll
    (overflow (getComputedStyle e) ++ overflowY (getComputedStyle e)
     ++ overflowX (getComputedStyle e)) = scrollable e.
Proof.
  intros (Ho & Hy & Hx). unfold scrollable.
  pose proof concat_test_computed as H.
  rewrite forallb_forall in H. specialize (H _ Ho).
  rewrite forallb_forall in H. specialize (H _ Hy).
  rewrite forallb_forall in H. specialize (H _ Hx).
  apply Bool.eqb_prop in H. exact H.
Qed.

Lemma scrollParentFrom_find (parent : HTMLElement) :
  Forall (fun a => computedStyle (getComputedStyle a)) (chainFrom parent) ->
  scrollParentFrom parent
  = match find scrollable (chainFrom parent) with
    | Some a => Node a
    | None => Window
    end.
Proof.
  induction parent as [i h style | i h style up IH] using HTMLElement_ind;
    intros V; inversion V as [| a l Va Vl]; subst;
    cbn [scrollParentFrom chainFrom find];
    rewrite <- (concat_test_scrollable _ Va); cbn [getComputedStyle];
    destruct (auto_or_scroll _); auto.
Qed.

(** C8: [getScrollParent] returns the nearest ancestor, walking upward
    from the element's parent, whose computed overflow, overflowY or
    overflowX matches "auto" or "scroll", and the window when no ancestor
    does or the element has no parent; the element in an [overflow:auto]
    div inside a non-overflow div resolves to the inner div. *)
Theorem container_resolution :
  (forall element : HTMLElement,
      Forall (fun a => computedStyle (getComputedStyle a))
             (ancestors element) ->
      getScrollParent element = resolve element)
  /\ (forall element : HTMLElement,
         parentElement element = None -> getScrollParent element = Window)
  /\ getScrollParent nestedImg = Node innerDiv.
Proof.
  split; [| split].
  - intros element V. unfold getScrollParent, resolve, ancestors in *.
    destruct (parentElement element) as [parent |]; [| reflexivity].
    apply scrollParentFrom_find, V.
  - intros element H. unfold getScrollParent. rewrite H. reflexivity.
  - reflexivity.
Qed.

Lemma In_existsb (s : string) (l : list string) :
  existsb (String.eqb s) l = true -> In s l.
Proof.
  intros H. apply existsb_exists in H. destruct H as (x & I & E).
  apply String.eqb_eq in E. subst. exact I.
Qed.

Lemma nestedImg_computed :
  Forall (fun a => computedStyle (getComputedStyle a)) (ancestors nestedImg).
Proof.
  unfold ancestors, nestedImg, innerDiv, outerDiv; cbn [parentElement chainFrom].
  constructor; [| constructor; [| constructor]];
    (split; [| split]); apply In_existsb; vm_compute; reflexivity.
Qed.

Lemma container_resolution_witness :
  Forall (fun a => computedStyle (getComputedStyle a)) (ancestors nestedImg)
  /\ getScrollParent nestedImg = resolve nestedImg
  /\ resolve nestedImg = Node innerDiv.
Proof.
  split; [exact nestedImg_computed | split].
  - apply (proj1 container_resolution nestedImg nestedImg_computed).
  - reflexivity.
Defined.

End Resolution.

(* ================================================================== *)
(** ** The rate limiters *)
(* ================================================================== *)

Section Throttle.

Context {Args S : Type}.
Implicit Types (w : Loop.t Args S) (callback : Args -> S -> S).

Lemma timeoutOf_small (d : Z) :
  0 <= d < 2147483648 -> Loop.timeoutOf d = d.
Proof.
  intros H. unfold Loop.timeoutOf, Loop.toInt32.
  rewrite Z.mod_small by lia. lia.
Qed.

Lemma timeoutOf_nonneg (d : Z) : 0 <= Loop.timeoutOf d.
Proof. unfold Loop.timeoutOf. lia. Qed.

Lemma throttle_call_immediate w callback delay lastCall timeoutId args :
  Loop.closure w = Some (Loop.Throttle callback delay lastCall timeoutId) ->
  delay <= Loop.now w - lastCall ->
  Loop.call args w
  = Loop.on_page (callback args)
      (Loop.set_closure
         (Some (Loop.Throttle callback delay (Loop.now w) timeoutId)) w).
Proof.
  intros C H. unfold Loop.call. rewrite C.
  apply Z.leb_le in H. rewrite H. reflexivity.
Qed.

Lemma throttle_call_schedule w callback delay lastCall args :
  Loop.closure w = Some (Loop.Throttle callback delay lastCall None) ->
  Loop.now w - lastCall < delay ->
  Loop.call args w
  = Loop.mk (Loop.now w)
      (Loop.timers w
       ++ [Loop.mkTimer (Loop.nextTimerId w)
             (Loop.now w
              + Loop.timeoutOf (delay - (Loop.now w - lastCall)))
             (Loop.ThrottleTask args)])
      (Pos.succ (Loop.nextTimerId w))
      (Some (Loop.Throttle callback delay lastCall
               (Some (Loop.nextTimerId w))))
      (Loop.page w).
Proof.
  intros C H. unfold Loop.call. rewrite C.
  apply Z.leb_gt in H. rewrite H. reflexivity.
Qed.

(** The remainder of the window, as far as it fits the timer's 32 bits. *)
Lemma throttle_due_window (now_ lastCall delay : Z) :
  now_ - lastCall < delay ->
  delay - (now_ - lastCall) < 2147483648 ->
  now_ + Loop.timeoutOf (delay - (now_ - lastCall)) = lastCall + delay.
Proof.
  intros H B. rewrite timeoutOf_small by lia. lia.
Qed.

Lemma throttle_call_coalesce w callback delay lastCall id args :
  Loop.closure w = Some (Loop.Throttle callback delay lastCall (Some id)) ->
  Loop.now w - lastCall < delay ->
  Loop.call args w = w.
Proof.
  intros C H. unfold Loop.call. rewrite C.
  apply Z.leb_gt in H. rewrite H. reflexivity.
Qed.

(** The trailing task: it records the time of its run, runs the callback
    with the arguments it was set with and clears [timeoutId]. *)
Lemma throttle_fire w callback delay lastCall timeoutId id due args :
  Loop.closure w = Some (Loop.Throttle callback delay lastCall timeoutId) ->
  Loop.timers w = [Loop.mkTimer id due (Loop.ThrottleTask args)] ->
  due <= Loop.now w ->
  Loop.fire id w
  = Loop.mk (Loop.now w) [] (Loop.nextTimerId w)
      (Some (Loop.Throttle callback delay (Loop.now w) None))
      (callback args (Loop.page w)).
Proof.
  intros C T D. unfold Loop.fire, Loop.findTimer. rewrite T. cbn.
  rewrite Pos.eqb_refl. cbn.
  destruct (Z.leb_spec due (Loop.now w)) as [_ | F]; [| lia].
  unfold Loop.runTask. cbn. rewrite C, T. cbn. rewrite Pos.eqb_refl.
  reflexivity.
Qed.

Lemma throttleInv_exec (op : LoopOp Args) w :
  throttleInv w -> throttleInv (exec op w).
Proof.
  unfold throttleInv. intros (callback & delay & lastCall & H).
  destruct w as [n tm nx cl pg]; cbn in H.
  destruct op as [args | id' | dt]; cbn [exec].
  - unfold Loop.call; cbn.
    destruct H as [[-> ->] | (id & due & a & -> & ->)];
      destruct (delay <=? n - lastCall); cbn.
    + exists callback, delay, n. left. split; reflexivity.
    + exists callback, delay, lastCall. right.
      eexists _, _, _. split; reflexivity.
    + exists callback, delay, n. right.
      eexists _, _, _. split; reflexivity.
    + exists callback, delay, lastCall. right.
      eexists _, _, _. split; reflexivity.
  - unfold Loop.fire, Loop.findTimer; cbn.
    destruct H as [[-> ->] | (id & due & a & -> & ->)]; cbn.
    + exists callback, delay, lastCall. left. split; reflexivity.
    + destruct (Pos.eqb id id') eqn:E; cbn.
      * destruct (due <=? n); cbn.
        -- try rewrite E; cbn. exists callback, delay, n.
           left. split; reflexivity.
        -- exists callback, delay, lastCall. right.
           eexists _, _, _. split; reflexivity.
      * exists callback, delay, lastCall. right.
        eexists _, _, _. split; reflexivity.
  - exists callback, delay, lastCall. exact H.
Qed.

Lemma throttleInv_execAll (ops : list (LoopOp Args)) w :
  throttleInv w -> throttleInv (execAll ops w).
Proof.
  revert w. induction ops as [| op ops IH]; intros w H; [exact H |].
  apply IH, throttleInv_exec, H.
Qed.

Lemma throttle_one_pending callback delay t0 s (ops : list (LoopOp Args)) :
  (List.length
     (Loop.timers (execAll ops (limited Loop.throttle callback delay t0 s)))
   <= 1)%nat.
Proof.
  destruct (throttleInv_execAll ops
              (limited Loop.throttle callback delay t0 s))
    as (cb & d & l & [[_ ->] | (id & due & a & _ & ->)]); cbn; try lia.
  exists callback, delay, 0. left. split; reflexivity.
Qed.

Lemma throttleWindowInv_exec callback delay (op : LoopOp Args) w :
  delay < 2147483648 ->
  throttleWindowInv callback delay w ->
  match op with
  | Call _ =>
      forallb (fun tm => Loop.now w <? Loop.timer_due tm) (Loop.timers w)
      = true
  | _ => True
  end ->
  throttleWindowInv callback delay (exec op w).
Proof.
  intros B (lastCall & L & H) P.
  destruct op as [args | id' | dt]; cbn [exec].
  - destruct H as [[C T] | (id & a & C & T)].
    + destruct (Z.le_gt_cases delay (Loop.now w - lastCall)) as [I | I].
      * rewrite (throttle_call_immediate w _ _ _ _ args C I).
        exists (Loop.now w). split; [cbn; lia |].
        left. split; [reflexivity | exact T].
      * rewrite (throttle_call_schedule w _ _ _ args C I).
        rewrite throttle_due_window by lia.
        exists lastCall. split; [exact L |].
        right. exists (Loop.nextTimerId w), args. rewrite T.
        split; reflexivity.
    + rewrite T in P. cbn in P. rewrite andb_true_r in P.
      apply Z.ltb_lt in P.
      rewrite (throttle_call_coalesce w _ _ _ _ args C) by lia.
      exists lastCall. split; [exact L |].
      right. exists id, a. split; assumption.
  - destruct H as [[C T] | (id & a & C & T)].
    + assert (E : Loop.fire id' w = w).
      { unfold Loop.fire, Loop.findTimer. rewrite T. reflexivity. }
      rewrite E. exists lastCall. split; [exact L |].
      left. split; assumption.
    + destruct (Pos.eqb_spec id id') as [<- | N].
      * destruct (Z.le_gt_cases (lastCall + delay) (Loop.now w))
          as [D | D].
        -- rewrite (throttle_fire w _ _ _ _ _ _ _ C T D).
           exists (Loop.now w). split; [cbn; lia |].
           left. split; reflexivity.
        -- assert (E : Loop.fire id w = w).
           { unfold Loop.fire, Loop.findTimer. rewrite T. cbn.
             rewrite Pos.eqb_refl. cbn.
             destruct (Z.leb_spec (lastCall + delay) (Loop.now w));
               [lia | reflexivity]. }
           rewrite E. exists lastCall. split; [exact L |].
           right. exists id, a. split; assumption.
      * assert (E : Loop.fire id' w = w).
        { unfold Loop.fire, Loop.findTimer. rewrite T. cbn.
          apply Pos.eqb_neq in N. rewrite N. reflexivity. }
        rewrite E. exists lastCall. split; [exact L |].
        right. exists id, a. split; assumption.
  - exists lastCall. split; [cbn; lia |]. exact H.
Qed.

Lemma throttleWindowInv_execAll callback delay (ops : list (LoopOp Args)) w :
  delay < 2147483648 ->
  throttleWindowInv callback delay w ->
  prompt ops w = true ->
  throttleWindowInv callback delay (execAll ops w).
Proof.
  intros B. revert w.
  induction ops as [| op ops IH]; intros w H P; [exact H |].
  cbn [prompt] in P. apply andb_true_iff in P. destruct P as [P1 P2].
  cbn [execAll fold_left]. apply IH; [| exact P2].
  apply throttleWindowInv_exec; [exact B | exact H |].
  destruct op; auto.
Qed.

End Throttle.

Section ThrottleTiming.

Lemma call_immediate_mk n tm nx delay lastCall timeoutId pg :
  delay <= n - lastCall ->
  Loop.call tt
    (Loop.mk n tm nx
       (Some (Loop.Throttle counting delay lastCall timeoutId)) pg)
  = Loop.mk n tm nx (Some (Loop.Throttle counting delay n timeoutId))
      (Datatypes.S pg).
Proof.
  intros H. erewrite throttle_call_immediate; [| reflexivity | exact H].
  reflexivity.
Qed.

Lemma call_schedule_mk n tm nx delay lastCall pg :
  n - lastCall < delay ->
  delay - (n - lastCall) < 2147483648 ->
  Loop.call tt
    (Loop.mk n tm nx (Some (Loop.Throttle counting delay lastCall None)) pg)
  = Loop.mk n
      (tm ++ [Loop.mkTimer nx (lastCall + delay) (Loop.ThrottleTask tt)])
      (Pos.succ nx)
      (Some (Loop.Throttle counting delay lastCall (Some nx))) pg.
Proof.
  intros H B. erewrite throttle_call_schedule; [| reflexivity | exact H].
  cbn [Loop.now Loop.timers Loop.nextTimerId Loop.page].
  rewrite (throttle_due_window n lastCall delay H B). reflexivity.
Qed.

Lemma call_coalesce_mk n tm nx delay lastCall id pg :
  n - lastCall < delay ->
  Loop.call tt
    (Loop.mk n tm nx
       (Some (Loop.Throttle counting delay lastCall (Some id))) pg)
  = Loop.mk n tm nx
      (Some (Loop.Throttle counting delay lastCall (Some id))) pg.
Proof.
  intros H. erewrite throttle_call_coalesce; [| reflexivity | exact H].
  reflexivity.
Qed.

Lemma spacedCalls_step {T : Type} (n : nat) (gap : N) (w : Loop.t unit T) :
  spacedCalls (Datatypes.S (Datatypes.S n)) gap w
  = spacedCalls (Datatypes.S n) gap (Loop.advance gap (Loop.call tt w)).
Proof. reflexivity. Qed.

Ltac throttle_call :=
  first [ rewrite call_coalesce_mk by lia
        | rewrite call_schedule_mk by lia
        | rewrite call_immediate_mk by lia ].

Ltac throttle_step :=
  rewrite spacedCalls_step; throttle_call;
  unfold Loop.advance, Loop.set_now;
  cbn [Loop.now Loop.timers Loop.nextTimerId Loop.closure Loop.page
       Z.of_N app Pos.succ].

Lemma ten_calls (t0 : Z) :
  300 <= t0 ->
  spacedCalls 10 10 (throttled300 t0)
  = Loop.mk (t0 + 10 + 10 + 10 + 10 + 10 + 10 + 10 + 10 + 10)
      [Loop.mkTimer 1 (t0 + 300) (Loop.ThrottleTask tt)] 2
      (Some (Loop.Throttle counting 300 t0 (Some 1%positive))) 1%nat.
Proof.
  intros H.
  change (throttled300 t0)
    with (Loop.mk t0 [] 1%positive
            (Some (Loop.Throttle counting 300 0 None)) 0%nat).
  do 9 throttle_step.
  cbn [spacedCalls]. throttle_call. reflexivity.
Qed.

(** C7 as stated fails: an immediate run leaves a pending trailing timer
    in place.  After a first call, a second call that sets the trailing
    timer for t0+300, and a third call at t0+310 that runs at once before
    the loop has run that timer, a call at t0+320 is within 300 ms of the
    last run and is dropped in favour of the timer that is still pending;
    that timer is due at t0+300, not at the end of the window, t0+610, and
    its run is the third, 10 ms after the second. *)
Lemma throttle_stale_timer :
  let w :=
    execAll [Call tt; Wait 10; Call tt; Wait 300; Call tt; Wait 10]
      (throttled300 1700000000000) in
  Loop.now w = 1700000000320
  /\ Loop.page w = 2%nat
  /\ Loop.closure w
     = Some (Loop.Throttle counting 300 1700000000310 (Some 1%positive))
  /\ Loop.call tt w = w
  /\ Loop.timers w
     = [Loop.mkTimer 1 1700000000300 (Loop.ThrottleTask tt)]
  /\ Loop.page (Loop.fire 1 w) = 3%nat.
Proof. vm_compute. repeat split. Qed.

(** C7, amended: under the throttle policy a call at least [delay] after
    the last run invokes the callback at once and records the time, leaving
    a pending timer as it is; a call within [delay] of the last run sets,
    when no timer is pending, one trailing timer with the remainder of the
    window as its delay, which is due at the end of the window as long as
    that remainder is below 2^31, and is dropped when a timer is pending,
    so that at most one timer is ever pending; the trailing timer, when it
    runs, records the time of its run, invokes the callback and clears
    [timeoutId]; on a prompt loop the pending timer is always due at the
    end of the current window; with [delay = 300], ten calls 10 ms apart
    give one immediate invocation and one trailing invocation, 300 ms after
    the first call, after which a new window starts. *)
Theorem throttle_policy :
  (forall (Args S : Type) (w : Loop.t Args S) callback delay lastCall
          timeoutId args,
      Loop.closure w
      = Some (Loop.Throttle callback delay lastCall timeoutId) ->
      delay <= Loop.now w - lastCall ->
      Loop.call args w
      = Loop.on_page (callback args)
          (Loop.set_closure
             (Some (Loop.Throttle callback delay (Loop.now w) timeoutId))
             w))
  /\ (forall (Args S : Type) (w : Loop.t Args S) callback delay lastCall
             args,
         Loop.closure w
         = Some (Loop.Throttle callback delay lastCall None) ->
         Loop.now w - lastCall < delay ->
         Loop.call args w
         = Loop.mk (Loop.now w)
             (Loop.timers w
              ++ [Loop.mkTimer (Loop.nextTimerId w)
                    (Loop.now w
                     + Loop.timeoutOf (delay - (Loop.now w - lastCall)))
                    (Loop.ThrottleTask args)])
             (Pos.succ (Loop.nextTimerId w))
             (Some (Loop.Throttle callback delay lastCall
                      (Some (Loop.nextTimerId w))))
             (Loop.page w)
         /\ (delay - (Loop.now w - lastCall) < 2147483648 ->
             Loop.now w + Loop.timeoutOf (delay - (Loop.now w - lastCall))
             = lastCall + delay))
  /\ (forall (Args S : Type) (w : Loop.t Args S) callback delay lastCall
             id args,
         Loop.closure w
         = Some (Loop.Throttle callback delay lastCall (Some id)) ->
         Loop.now w - lastCall < delay ->
         Loop.call args w = w)
  /\ (forall (Args S : Type) (w : Loop.t Args S) callback delay lastCall
             timeoutId id due args,
         Loop.closure w
         = Some (Loop.Throttle callback delay lastCall timeoutId) ->
         Loop.timers w = [Loop.mkTimer id due (Loop.ThrottleTask args)] ->
         (due <= Loop.now w ->
          Loop.fire id w
          = Loop.mk (Loop.now w) [] (Loop.nextTimerId w)
              (Some (Loop.Throttle callback delay (Loop.now w) None))
              (callback args (Loop.page w)))
         /\ (Loop.now w < due -> Loop.fire id w = w))
  /\ (forall (Args S : Type) (callback : Args -> S -> S) delay t0 s
             (ops : list (LoopOp Args)),
         (List.length
            (Loop.timers
               (execAll ops (limited Loop.throttle callback delay t0 s)))
          <= 1)%nat)
  /\ (forall (Args S : Type) (callback : Args -> S -> S) delay t0 s
             (ops : list (LoopOp Args)),
         0 <= t0 -> delay < 2147483648 ->
         prompt ops (limited Loop.throttle callback delay t0 s) = true ->
         throttleWindowInv callback delay
           (execAll ops (limited Loop.throttle callback delay t0 s)))
  /\ (forall t0 : Z,
         300 <= t0 ->
         let w1 := Loop.call tt (throttled300 t0) in
         let w10 := spacedCalls 10 10 (throttled300 t0) in
         Loop.page w1 = 1%nat
         /\ Loop.timers w1 = []
         /\ Loop.page w10 = 1%nat
         /\ Loop.now w10 = t0 + 90
         /\ Loop.timers w10
            = [Loop.mkTimer 1 (t0 + 300) (Loop.ThrottleTask tt)]
         /\ (forall dt : N,
                (dt < 210)%N ->
                Loop.fire 1 (Loop.advance dt w10) = Loop.advance dt w10)
         /\ let w' := Loop.fire 1 (Loop.advance 210 w10) in
            Loop.now w' = t0 + 300
            /\ Loop.page w' = 2%nat
            /\ Loop.timers w' = []
            /\ Loop.closure w'
               = Some (Loop.Throttle counting 300 (t0 + 300) None)).
Proof.
  split; [| split; [| split; [| split; [| split; [| split]]]]].
  - intros; eapply throttle_call_immediate; eassumption.
  - intros Args S w callback delay lastCall args C H. split.
    + apply throttle_call_schedule; assumption.
    + intros B. apply throttle_due_window; assumption.
  - intros; eapply throttle_call_coalesce; eassumption.
  - intros Args S w callback delay lastCall timeoutId id due args C T.
    split.
    + intros D. eapply throttle_fire; eassumption.
    + intros D. unfold Loop.fire, Loop.findTimer. rewrite T. cbn.
      rewrite Pos.eqb_refl. cbn.
      destruct (Z.leb_spec due (Loop.now w)); [lia | reflexivity].
  - intros; apply throttle_one_pending.
  - intros Args S callback delay t0 s ops T0 B P.
    apply throttleWindowInv_execAll; [exact B | | exact P].
    exists 0. split; [exact T0 |]. left. split; reflexivity.
  - intros t0 H w1 w10. subst w1 w10. rewrite (ten_calls t0 H).
    split; [| split; [| split; [| split; [| split; [| split]]]]].
    + unfold throttled300, limited, newLoop.
      erewrite throttle_call_immediate; [| reflexivity | cbn; lia].
      reflexivity.
    + unfold throttled300, limited, newLoop.
      erewrite throttle_call_immediate; [| reflexivity | cbn; lia].
      reflexivity.
    + reflexivity.
    + cbn. lia.
    + reflexivity.
    + intros dt Hdt. unfold Loop.fire, Loop.findTimer; cbn.
      destruct (Z.leb_spec (t0 + 300)
                  (t0 + 10 + 10 + 10 + 10 + 10 + 10 + 10 + 10 + 10
                   + Z.of_N dt)) as [L | L]; [lia | reflexivity].
    + cbn zeta.
      erewrite throttle_fire; [| reflexivity | reflexivity | cbn; lia].
      cbn [Loop.now Loop.page Loop.timers Loop.closure Loop.advance
           Loop.set_now Z.of_N].
      replace (t0 + 10 + 10 + 10 + 10 + 10 + 10 + 10 + 10 + 10 + 210)
        with (t0 + 300) by lia.
      repeat split.
Qed.

Lemma throttle_policy_witness :
  let w10 := spacedCalls 10 10 (throttled300 1700000000000) in
  let w' := Loop.fire 1 (Loop.advance 210 w10) in
  (Loop.page (Loop.call tt (throttled300 1700000000000)) = 1%nat
   /\ Loop.page w10 = 1%nat
   /\ Loop.page w' = 2%nat
   /\ Loop.closure w'
      = Some (Loop.Throttle counting 300 1700000000300 None))
  /\ throttleWindowInv counting 300
       (execAll [Call tt; Wait 10; Call tt; Wait 290; Fire 1; Wait 5;
                 Call tt]
          (limited Loop.throttle counting 300 1700000000000 0%nat)).
Proof.
  split.
  - destruct (proj2 (proj2 (proj2 (proj2 (proj2 (proj2 throttle_policy)))))
                1700000000000)
      as (A & _ & B & _ & _ & _ & _ & C & _ & D); [lia |].
    exact (conj A (conj B (conj C D))).
  - apply (proj1 (proj2 (proj2 (proj2 (proj2 (proj2 throttle_policy)))))
             unit nat counting 300 1700000000000 0%nat).
    + lia.
    + lia.
    + vm_compute. reflexivity.
Defined.

End ThrottleTiming.

Section ZeroInterval.

Context {Args S : Type}.
Implicit Types (w : Loop.t Args S) (callback : Args -> S -> S).

Lemma throttleZeroInv_exec callback (op : LoopOp Args) w :
  throttleZeroInv callback w -> throttleZeroInv callback (exec op w).
Proof.
  unfold throttleZeroInv. intros (lastCall & C & L & T).
  destruct w as [n tm nx cl pg]; cbn in C, L, T; subst.
  destruct op as [args | id | dt]; cbn [exec].
  - unfold Loop.call; cbn.
    destruct (Z.leb_spec 0 (n - lastCall)) as [_ | F]; [| lia].
    exists n; cbn. repeat split; lia.
  - exists lastCall. cbn. repeat split; assumption.
  - exists lastCall; cbn. repeat split; lia.
Qed.

Lemma throttleZeroInv_execAll callback (ops : list (LoopOp Args)) w :
  throttleZeroInv callback w -> throttleZeroInv callback (execAll ops w).
Proof.
  revert w. induction ops as [| op ops IH]; intros w H; [exact H |].
  apply IH, throttleZeroInv_exec, H.
Qed.

Lemma throttle_zero_call callback w args :
  throttleZeroInv callback w ->
  Loop.page (Loop.call args w) = callback args (Loop.page w)
  /\ Loop.timers (Loop.call args w) = [].
Proof.
  intros (lastCall & C & L & T).
  erewrite throttle_call_immediate; [| exact C | lia].
  split; [reflexivity | exact T].
Qed.

Lemma debounceInv_exec callback delay (op : LoopOp Args) w :
  debounceInv callback delay w -> debounceInv callback delay (exec op w).
Proof.
  unfold debounceInv. intros (timerId & C & T).
  destruct w as [n tm nx cl pg]; cbn in C, T; subst cl.
  destruct op as [args | id' | dt]; cbn [exec].
  - unfold Loop.call; cbn.
    destruct T as [-> | (id & due & a & -> & ->)].
    + destruct timerId; cbn;
        (eexists; split;
         [reflexivity | right; eexists _, _, _; split; reflexivity]).
    + cbn. rewrite Pos.eqb_refl; cbn.
      eexists; split;
        [reflexivity | right; eexists _, _, _; split; reflexivity].
  - unfold Loop.fire, Loop.findTimer; cbn.
    destruct T as [-> | (id & due & a & -> & ->)]; cbn.
    + exists timerId. split; [reflexivity | left; reflexivity].
    + destruct (Pos.eqb id id') eqn:E; cbn.
      * destruct (due <=? n); cbn.
        -- try rewrite E; cbn. exists (Some id).
           split; [reflexivity | left; reflexivity].
        -- exists (Some id). split; [reflexivity | right].
           eexists _, _, _; split; reflexivity.
      * exists (Some id). split; [reflexivity | right].
        eexists _, _, _; split; reflexivity.
  - exists timerId. split; [reflexivity | exact T].
Qed.

Lemma debounceInv_execAll callback delay (ops : list (LoopOp Args)) w :
  debounceInv callback delay w ->
  debounceInv callback delay (execAll ops w).
Proof.
  revert w. induction ops as [| op ops IH]; intros w H; [exact H |].
  apply IH, debounceInv_exec, H.
Qed.

Lemma debounce_call callback delay w args :
  debounceInv callback delay w ->
  Loop.page (Loop.call args w) = Loop.page w
  /\ Loop.timers (Loop.call args w)
     = [Loop.mkTimer (Loop.nextTimerId w)
          (Loop.now w + Loop.timeoutOf delay) (Loop.DebounceTask args)].
Proof.
  intros (timerId & C & T). unfold Loop.call. rewrite C.
  destruct w as [n tm nx cl pg]; cbn in C, T |- *.
  destruct T as [-> | (id & due & a & -> & ->)].
  - destruct timerId; cbn; split; reflexivity.
  - cbn. rewrite Pos.eqb_refl; cbn. split; reflexivity.
Qed.

End ZeroInterval.

(** C5 as stated fails for debounce: with interval 0 a call of the limited
    callback leaves the counting callback uninvoked and a timer pending, and
    two calls made before the loop runs timers lead to one invocation. *)
Lemma debounce_zero_defers :
  let w0 : Loop.t unit nat :=
    limited Loop.debounce counting 0 1700000000000 0%nat in
  Loop.page (Loop.call tt w0) = 0%nat
  /\ List.length (Loop.timers (Loop.call tt w0)) = 1%nat
  /\ Loop.page (Loop.call tt (Loop.call tt w0)) = 0%nat
  /\ Loop.page
       (Loop.fire 2 (Loop.fire 1 (Loop.call tt (Loop.call tt w0)))) = 1%nat.
Proof. vm_compute. repeat split. Qed.

(** C5, amended: with interval 0, under the throttle policy every call of
    the limited callback, in any state the loop can reach from a start at a
    non-negative time, runs the callback within the call and no timer is
    ever pending; under the debounce policy every call leaves the callback
    unrun and exactly one timer pending, due at the time of the call. *)
Theorem zero_interval :
  (forall (Args S : Type) (callback : Args -> S -> S) (t0 : Z) (s : S)
          (ops : list (LoopOp Args)) (args : Args),
      0 <= t0 ->
      let w := execAll ops (limited Loop.throttle callback 0 t0 s) in
      Loop.page (Loop.call args w) = callback args (Loop.page w)
      /\ Loop.timers (Loop.call args w) = [])
  /\ (forall (Args S : Type) (callback : Args -> S -> S) (t0 : Z) (s : S)
             (ops : list (LoopOp Args)) (args : Args),
         let w := execAll ops (limited Loop.debounce callback 0 t0 s) in
         Loop.page (Loop.call args w) = Loop.page w
         /\ Loop.timers (Loop.call args w)
            = [Loop.mkTimer (Loop.nextTimerId w) (Loop.now w)
                 (Loop.DebounceTask args)]).
Proof.
  split.
  - intros Args S callback t0 s ops args H w.
    apply throttle_zero_call. subst w.
    apply throttleZeroInv_execAll.
    exists 0. cbn. repeat split. exact H.
  - intros Args S callback t0 s ops args w.
    destruct (debounce_call callback 0 w args) as [P T].
    + subst w. apply debounceInv_execAll.
      exists None. split; [reflexivity | left; reflexivity].
    + split; [exact P |]. rewrite T. cbn. rewrite Z.add_0_r. reflexivity.
Qed.

Lemma zero_interval_witness :
  let w : Loop.t unit nat :=
    execAll [Call tt; Wait 5; Call tt]
      (limited Loop.throttle counting 0 1700000000000 0%nat) in
  Loop.page w = 2%nat
  /\ Loop.page (Loop.call tt w) = 3%nat
  /\ Loop.timers (Loop.call tt w) = [].
Proof.
  intro w. split; [reflexivity |].
  apply (proj1 zero_interval unit nat counting 1700000000000 0%nat
           [Call tt; Wait 5; Call tt] tt).
  lia.
Defined.

(* ================================================================== *)
(** ** The element's operations on the page *)
(* ================================================================== *)

Section PageFacts.

Lemma loads_emit (e : Effect) (p : Page) :
  loads (emit e p)
  = (loads p + if is_LoadImage e then 1 else 0)%nat.
Proof.
  unfold loads, emit; cbn. rewrite filter_app, length_app; cbn.
  destruct (is_LoadImage e); reflexivity.
Qed.

Lemma log_removeScrollAndResizeListeners (p : Page) :
  log (removeScrollAndResizeListeners p) = log p ++ removals p.
Proof.
  unfold removeScrollAndResizeListeners, removals.
  destruct (scrollAndResizeCallback p); cbn.
  - rewrite <- !app_assoc. reflexivity.
  - rewrite app_nil_r. reflexivity.
Qed.

Lemma loads_removeScrollAndResizeListeners (p : Page) :
  loads (removeScrollAndResizeListeners p) = loads p.
Proof.
  unfold loads. rewrite log_removeScrollAndResizeListeners.
  rewrite filter_app, length_app. unfold removals.
  destruct (scrollAndResizeCallback p); cbn; lia.
Qed.

Lemma loads_observer_disconnect (p : Page) :
  loads (observer_disconnect p) = loads p.
Proof.
  unfold observer_disconnect. destruct (observer p); [| reflexivity].
  rewrite loads_emit; cbn. unfold loads; cbn. lia.
Qed.

Lemma loads_loadImage (p : Page) : loads (loadImage p) = Datatypes.S (loads p).
Proof.
  unfold loadImage. rewrite loads_emit; cbn. unfold loads; cbn. lia.
Qed.

(** What [removeScrollAndResizeListeners] leaves alone. *)
Lemma frame_removeScrollAndResizeListeners (p : Page) :
  let q := removeScrollAndResizeListeners p in
  visibleByDefault q = visibleByDefault p
  /\ imageVisible q = imageVisible p
  /\ observer q = observer p
  /\ hasUpdated q = hasUpdated p
  /\ scrollParent q = scrollParent p
  /\ scrollAndResizeCallback q = None.
Proof.
  unfold removeScrollAndResizeListeners.
  destruct (scrollAndResizeCallback p) eqn:E; cbn; repeat split; exact E.
Qed.

(** [handleScroll] either returns at once or reveals the element. *)
Lemma handleScroll_cases (p : Page) :
  (handleScroll p = p
   /\ (visibleByDefault p = true \/ imageVisible p = true
       \/ isCurrentlyVisible p = false))
  \/ (visibleByDefault p = false /\ imageVisible p = false
      /\ isCurrentlyVisible p = true
      /\ handleScroll p = removeScrollAndResizeListeners (loadImage p)).
Proof.
  unfold handleScroll.
  destruct (visibleByDefault p), (imageVisible p),
    (isCurrentlyVisible p); cbn; auto 6.
Qed.

End PageFacts.

(* ================================================================== *)
(** ** Reveal and disposal *)
(* ================================================================== *)

Section Reveal.

Lemma same_target_refl (t : ScrollParent) : same_target t t = true.
Proof. destruct t; cbn; [reflexivity | apply Nat.eqb_refl]. Qed.

Lemma listeners_removed (p : Page) :
  listenersInv p -> listeners (removeScrollAndResizeListeners p) = [].
Proof.
  unfold removeScrollAndResizeListeners.
  intros [E | [C E]].
  - destruct (scrollAndResizeCallback p); cbn; rewrite E; reflexivity.
  - rewrite C; cbn. rewrite E; cbn.
    rewrite same_target_refl; cbn.
    destruct (scrollParent p); reflexivity.
Qed.

Lemma handleScroll_reveals (p : Page) :
  visibleByDefault p = false -> imageVisible p = false ->
  isCurrentlyVisible p = true ->
  handleScroll p = removeScrollAndResizeListeners (loadImage p).
Proof.
  intros V I C. unfold handleScroll. rewrite V, I, C. reflexivity.
Qed.

(** C4 as stated fails: when the polling check reveals the element,
    [loadImage] is the first call made, with the scroll and the resize
    listener still registered; the removals follow it. *)
Lemma reveal_precedes_disposal :
  let p :=
    Loop.page (step (Relayout inViewLayout)
                 (activate 1700000000000 hiddenPage)) in
  listeners p = [(Window, scroll); (Window, resize)]
  /\ log (handleScroll p)
     = log p ++ [LoadImage;
                 RemoveEventListener Window scroll;
                 RemoveEventListener Window scroll;
                 RemoveEventListener Window resize].
Proof. split; reflexivity. Qed.

(** C4, amended: a reveal by the polling check invokes [loadImage] once
    and then removes the scroll and resize listeners, after which the
    element holds no callback and has no listener registered; a reveal by
    the observer callback invokes [loadImage] once and then disconnects
    the observer. *)
Theorem reveal_then_dispose :
  (forall p : Page,
      visibleByDefault p = false -> imageVisible p = false ->
      isCurrentlyVisible p = true ->
      let q := handleScroll p in
      log q = log p ++ LoadImage :: removals p
      /\ loads q = Datatypes.S (loads p)
      /\ imageVisible q = true
      /\ scrollAndResizeCallback q = None
      /\ (listenersInv p -> listeners q = []))
  /\ (forall p : Page,
         let q := onIntersection true p in
         log q
         = log p ++ LoadImage
             :: match observer p with
                | Some _ => [Disconnect]
                | None => []
                end
         /\ loads q = Datatypes.S (loads p)
         /\ imageVisible q = true
         /\ (forall o, observer q = Some o -> observing o = false)).
Proof.
  split.
  - intros p V I C q. subst q. rewrite (handleScroll_reveals p V I C).
    split; [| split; [| split; [| split]]].
    + rewrite log_removeScrollAndResizeListeners. cbn.
      rewrite <- app_assoc. reflexivity.
    + rewrite loads_removeScrollAndResizeListeners. apply loads_loadImage.
    + unfold removeScrollAndResizeListeners.
      destruct (scrollAndResizeCallback (loadImage p)); reflexivity.
    + unfold removeScrollAndResizeListeners.
      destruct (scrollAndResizeCallback (loadImage p)) eqn:E;
        [reflexivity | exact E].
    + intros L. apply listeners_removed. exact L.
  - intros p q. subst q. unfold onIntersection, observer_disconnect.
    cbn [observer loadImage emit set_log set_imageVisible].
    destruct (observer p) as [o |] eqn:E.
    + split; [| split; [| split]].
      * cbn. rewrite <- app_assoc. reflexivity.
      * rewrite loads_emit; cbn. unfold loads; cbn.
        rewrite filter_app, length_app; cbn. lia.
      * reflexivity.
      * intros o' H. cbn in H. inversion H. reflexivity.
    + split; [| split; [| split]].
      * reflexivity.
      * apply loads_loadImage.
      * reflexivity.
      * intros o' H. cbn in H. congruence.
Qed.

Lemma reveal_then_dispose_witness :
  let p :=
    Loop.page (step (Relayout inViewLayout)
                 (activate 1700000000000 hiddenPage)) in
  log (handleScroll p) = log p ++ LoadImage :: removals p
  /\ loads (handleScroll p) = Datatypes.S (loads p)
  /\ imageVisible (handleScroll p) = true
  /\ scrollAndResizeCallback (handleScroll p) = None
  /\ (listenersInv p -> listeners (handleScroll p) = []).
Proof.
  intro p. apply (proj1 reveal_then_dispose p); reflexivity.
Defined.

End Reveal.

(* ================================================================== *)
(** ** The check at activation *)
(* ================================================================== *)

Section Activation.

Lemma isCurrentlyVisible_addEventListener target type (p : Page) :
  isCurrentlyVisible (addEventListener target type p)
  = isCurrentlyVisible p.
Proof.
  unfold addEventListener.
  destruct (registered target type _); reflexivity.
Qed.

Lemma handleScroll_loads (p : Page) :
  visibleByDefault p = false -> imageVisible p = false ->
  loads (handleScroll p)
  = (loads p + if isCurrentlyVisible p then 1 else 0)%nat.
Proof.
  intros V I. unfold handleScroll. rewrite V, I; cbn.
  destruct (isCurrentlyVisible p).
  - rewrite loads_removeScrollAndResizeListeners, loads_loadImage. lia.
  - lia.
Qed.

(** The page of a polling element between
    [initScrollAndResizeHandlers] and the first [handleScroll]. *)
Lemma page_initScrollAndResizeHandlers (w : World) :
  let q := Loop.page (initScrollAndResizeHandlers w) in
  visibleByDefault q = visibleByDefault (Loop.page w)
  /\ imageVisible q = imageVisible (Loop.page w)
  /\ observer q = observer (Loop.page w)
  /\ hasUpdated q = hasUpdated (Loop.page w)
  /\ loads q = loads (Loop.page w)
  /\ scrollParent q = getScrollParent (self (Loop.page w))
  /\ isCurrentlyVisible q
     = isCurrentlyVisible
         (set_scrollParent (getScrollParent (self (Loop.page w)))
            (Loop.page w)).
Proof.
  unfold initScrollAndResizeHandlers; cbn.
  unfold addEventListener.
  repeat match goal with
         | |- context [if ?b then _ else _] => destruct b
         end; cbn; unfold loads; cbn;
    rewrite ?filter_app, ?length_app; cbn;
    repeat split; lia.
Qed.

(** C9 as stated fails: under the polling strategy an element with a
    scrollable HTML ancestor is checked against that ancestor's rectangle;
    it overlaps the window's viewport at activation and is not revealed. *)
Lemma activation_checks_container :
  isCurrentlyVisible (set_scrollParent Window nestedPage) = true
  /\ observerSelected nestedPage = false
  /\ scrollParent (Loop.page (activate 1700000000000 nestedPage))
     = Node innerDiv
  /\ imageVisible (Loop.page (activate 1700000000000 nestedPage)) = false.
Proof. repeat split. Qed.

Lemma activation_check_aux (p : Page) (t0 : Z) :
  fresh p -> visibleByDefault p = false ->
  let q := Loop.page (activate t0 p) in
  (observerSelected p = true ->
   scrollParent q = Window
   /\ imageVisible q = isCurrentlyVisible (set_scrollParent Window p))
  /\ (observerSelected p = false ->
      scrollParent q = getScrollParent (self p)
      /\ imageVisible q
         = isCurrentlyVisible
             (set_scrollParent (getScrollParent (self p)) p))
  /\ loads q = (if imageVisible q then 1 else 0)%nat.
Proof.
  intros (Ho & Hc & Hi & Hs & Hu & Hl & Hg) V q. subst q.
  unfold observerSelected, activate, connectedCallback.
  cbn [Loop.page newLoop]. rewrite V. cbn [negb andb].
  destruct (useIntersectionObserver p && intersectionObserverInWindow p).
  - cbn [Loop.on_page Loop.set_page Loop.page].
    assert (L0 : loads (initialiseObserver p) = 0%nat)
      by (unfold loads; cbn; rewrite Hg; reflexivity).
    pose proof (handleScroll_loads (initialiseObserver p) V Hi) as HL.
    pose proof (handleScroll_imageVisible (initialiseObserver p) V Hi)
      as HV.
    change (isCurrentlyVisible (initialiseObserver p))
      with (isCurrentlyVisible p) in HL, HV.
    split; [| split].
    + intros _. split.
      * pose proof (handleScroll_cases (initialiseObserver p))
          as [[E _] | (_ & _ & _ & E)]; rewrite E.
        -- exact Hs.
        -- destruct (frame_removeScrollAndResizeListeners
                       (loadImage (initialiseObserver p)))
             as (_ & _ & _ & _ & S & _).
           rewrite S. exact Hs.
      * rewrite HV. unfold isCurrentlyVisible; cbn. rewrite Hs.
        reflexivity.
    + intros F; discriminate F.
    + rewrite HL, HV, L0. destruct (isCurrentlyVisible p); reflexivity.
  - set (w := newLoop t0 p : World).
    destruct (page_initScrollAndResizeHandlers w)
      as (A & B & _ & _ & C & D & E).
    cbn [Loop.page w newLoop] in A, B, C, D, E.
    cbn [Loop.on_page Loop.set_page Loop.page].
    set (p1 := Loop.page (initScrollAndResizeHandlers w)) in *.
    assert (V1 : visibleByDefault p1 = false) by congruence.
    assert (I1 : imageVisible p1 = false) by congruence.
    assert (L0 : loads p1 = 0%nat)
      by (rewrite C; unfold loads; rewrite Hg; reflexivity).
    pose proof (handleScroll_loads p1 V1 I1) as HL.
    pose proof (handleScroll_imageVisible p1 V1 I1) as HV.
    split; [| split].
    + intros F; discriminate F.
    + intros _. split.
      * pose proof (handleScroll_cases p1) as [[X _] | (_ & _ & _ & X)];
          rewrite X.
        -- exact D.
        -- destruct (frame_removeScrollAndResizeListeners (loadImage p1))
             as (_ & _ & _ & _ & S & _).
           rewrite S. exact D.
      * rewrite HV. exact E.
    + rewrite HL, HV, L0. destruct (isCurrentlyVisible p1); reflexivity.
Qed.

Lemma isCurrentlyVisible_overlaps (p : Page) :
  isCurrentlyVisible p = overlaps (rect (layout p)) (containerRect p).
Proof.
  unfold isCurrentlyVisible, containerRect, overlaps, viewportRect.
  destruct (instanceofHTMLElement (scrollParent p)); reflexivity.
Qed.

(** C9, amended: at activation with [visibleByDefault] false one overlap
    check is made whatever the strategy: under the observer strategy
    against the window's viewport; under the polling strategy against the
    rectangle of the resolved scroll parent when that ancestor is an
    [HTMLElement], and against the window's viewport when no ancestor
    scrolls or the nearest one that does is not an [HTMLElement]; the
    element is revealed at once, by one [loadImage], exactly when that
    check finds overlap on both axes. *)
Theorem activation_check (p : Page) (t0 : Z) :
  fresh p -> visibleByDefault p = false ->
  let q := Loop.page (activate t0 p) in
  let l := layout p in
  (observerSelected p = true ->
   scrollParent q = Window
   /\ imageVisible q = overlaps (rect l) (viewportRect l))
  /\ (observerSelected p = false ->
      scrollParent q = getScrollParent (self p)
      /\ (forall e, getScrollParent (self p) = Node e -> isHTML e = true ->
                    imageVisible q = overlaps (rect l) (parentRect l))
      /\ (forall e, getScrollParent (self p) = Node e -> isHTML e = false ->
                    imageVisible q = overlaps (rect l) (viewportRect l))
      /\ (getScrollParent (self p) = Window ->
          imageVisible q = overlaps (rect l) (viewportRect l)))
  /\ loads q = (if imageVisible q then 1 else 0)%nat.
Proof.
  intros F V q l.
  destruct (activation_check_aux p t0 F V) as (A & B & C).
  fold q in A, B, C.
  split; [| split; [| exact C]].
  - intros Sel. destruct (A Sel) as [S I]. split; [exact S |].
    rewrite I, isCurrentlyVisible_overlaps. reflexivity.
  - intros Sel. destruct (B Sel) as [S I]. split; [exact S |].
    rewrite I, isCurrentlyVisible_overlaps.
    unfold containerRect. cbn [scrollParent layout set_scrollParent].
    fold l. split; [| split].
    + intros e E H. rewrite E. cbn. rewrite H. reflexivity.
    + intros e E H. rewrite E. cbn. rewrite H. reflexivity.
    + intros E. rewrite E. reflexivity.
Qed.

Lemma activation_check_witness :
  getScrollParent (self svgPage) = Node foreignObject
  /\ isHTML foreignObject = false
  /\ imageVisible (Loop.page (activate 1700000000000 svgPage))
     = overlaps (rect (layout svgPage)) (viewportRect (layout svgPage))
  /\ overlaps (rect (layout svgPage)) (viewportRect (layout svgPage)) = true
  /\ overlaps (rect (layout svgPage)) (parentRect (layout svgPage)) = false.
Proof.
  split; [reflexivity | split; [reflexivity | split; [| split]]].
  - destruct (activation_check svgPage 1700000000000)
      as (_ & B & _).
    + repeat split.
    + reflexivity.
    + destruct B as (_ & _ & B & _); [reflexivity |].
      apply (B foreignObject); reflexivity.
  - reflexivity.
  - reflexivity.
Defined.

End Activation.

(* ================================================================== *)
(** ** The threshold *)
(* ================================================================== *)

(** C10: the overlap check of the polling strategy does not depend on the
    threshold: under any two thresholds and the same geometry
    [isCurrentlyVisible] has the same value and [handleScroll] leaves pages
    that differ in the threshold only; the threshold goes into the
    observer's [rootMargin]. *)
Theorem threshold_independence :
  (forall (p : Page) (t1 t2 : Q),
      isCurrentlyVisible (set_threshold t1 p)
      = isCurrentlyVisible (set_threshold t2 p))
  /\ (forall (p : Page) (t1 t2 : Q),
         handleScroll (set_threshold t2 p)
         = set_threshold t2 (handleScroll (set_threshold t1 p)))
  /\ (forall p : Page,
         observer (initialiseObserver p)
         = Some (mkObserver (threshold p) false)).
Proof.
  split; [| split].
  - reflexivity.
  - intros p t1 t2. unfold handleScroll.
    cbn [visibleByDefault imageVisible set_threshold].
    destruct (visibleByDefault p || imageVisible p); [reflexivity |].
    change (isCurrentlyVisible (set_threshold t2 p))
      with (isCurrentlyVisible p).
    change (isCurrentlyVisible (set_threshold t1 p))
      with (isCurrentlyVisible p).
    destruct (isCurrentlyVisible p); [| reflexivity].
    unfold removeScrollAndResizeListeners.
    cbn [scrollAndResizeCallback loadImage emit set_log set_imageVisible
         set_threshold].
    destruct (scrollAndResizeCallback p); reflexivity.
  - reflexivity.
Qed.

(* ================================================================== *)
(** ** What a call and a timer can do to the page *)
(* ================================================================== *)

Section LoopFacts.

Context {Args S : Type}.
Implicit Types (w : Loop.t Args S).

(** A call of the limited callback leaves the page alone or applies the
    wrapped callback to it once, and keeps the wrapped callback. *)
Lemma call_page (args : Args) w :
  (Loop.page (Loop.call args w) = Loop.page w
   \/ exists l, Loop.closure w = Some l
                /\ Loop.page (Loop.call args w)
                   = callbackOf l args (Loop.page w))
  /\ option_map callbackOf (Loop.closure (Loop.call args w))
     = option_map callbackOf (Loop.closure w).
Proof.
  unfold Loop.call.
  destruct (Loop.closure w) as [[cb d tid | cb d last tid] |] eqn:C.
  - split; [left |]; destruct tid; reflexivity.
  - destruct (d <=? Loop.now w - last).
    + split; [right; eexists; split; reflexivity | reflexivity].
    + destruct tid; cbn; rewrite ?C; split; auto.
  - rewrite C. split; auto.
Qed.

(** So does a timer, with the arguments of the call that set it. *)
Lemma fire_page (id : positive) w :
  (Loop.page (Loop.fire id w) = Loop.page w
   \/ exists l args, Loop.closure w = Some l
                     /\ Loop.page (Loop.fire id w)
                        = callbackOf l args (Loop.page w))
  /\ option_map callbackOf (Loop.closure (Loop.fire id w))
     = option_map callbackOf (Loop.closure w).
Proof.
  unfold Loop.fire.
  destruct (Loop.findTimer id w) as [tm |]; [| split; auto].
  destruct (Loop.timer_due tm <=? Loop.now w); [| split; auto].
  unfold Loop.runTask.
  cbn [Loop.clearTimeout Loop.set_timers Loop.closure Loop.page].
  destruct (Loop.timer_task tm) as [args | args];
    destruct (Loop.closure w) as [[cb d tid | cb d last tid] |] eqn:C;
    cbn; rewrite ?C; cbn;
    (split;
     [first [ left; reflexivity
            | right; eexists _, _; split; reflexivity ]
     | reflexivity ]).
Qed.

(** Neither [call] nor [fire] nor the passing of time creates or drops
    the closure. *)
Lemma advance_page (dt : N) w :
  Loop.page (Loop.advance dt w) = Loop.page w
  /\ Loop.closure (Loop.advance dt w) = Loop.closure w.
Proof. split; reflexivity. Qed.

End LoopFacts.

(* ================================================================== *)
(** ** One event *)
(* ================================================================== *)

Section Steps.

Lemma closureOK_iff (w : World) :
  closureOK w
  <-> option_map callbackOf (Loop.closure w) = None
      \/ option_map callbackOf (Loop.closure w)
         = Some (fun _ : DOMEvent => handleScroll).
Proof.
  unfold closureOK. destruct (Loop.closure w); cbn; split.
  - intros ->. auto.
  - intros [F | E]; [discriminate F | injection E; auto].
  - auto.
  - auto.
Qed.

Lemma closure_None_iff {Args S : Type} (w : Loop.t Args S) :
  Loop.closure w = None <-> option_map callbackOf (Loop.closure w) = None.
Proof. destruct (Loop.closure w); cbn; split; congruence. Qed.

(** Every event acts on the page in one of the ways of [pageStep], and
    keeps what the closure wraps. *)
Lemma step_pageStep (e : Event) (w : World) :
  closureOK w ->
  pageStep w (Loop.page (step e w))
  /\ option_map callbackOf (Loop.closure (step e w))
     = option_map callbackOf (Loop.closure w).
Proof.
  intros OK. destruct e as [dt | id | l | target | | b | |]; cbn [step].
  - split; [exact (ps_same w) | reflexivity].
  - destruct (fire_page id w) as [[E | (l & args & C & E)] K];
      split; try exact K; rewrite E.
    + exact (ps_same w).
    + unfold closureOK in OK. rewrite C in OK. rewrite OK.
      apply ps_scroll. congruence.
  - split; [exact (ps_layout w l) | reflexivity].
  - destruct (registered target scroll (Loop.page w));
      [| split; [exact (ps_same w) | reflexivity]].
    destruct (call_page ScrollEvent w) as [[E | (l & C & E)] K];
      split; try exact K; rewrite E.
    + exact (ps_same w).
    + unfold closureOK in OK. rewrite C in OK. rewrite OK.
      apply ps_scroll. congruence.
  - destruct (registered Window resize (Loop.page w));
      [| split; [exact (ps_same w) | reflexivity]].
    destruct (call_page ResizeEvent w) as [[E | (l & C & E)] K];
      split; try exact K; rewrite E.
    + exact (ps_same w).
    + unfold closureOK in OK. rewrite C in OK. rewrite OK.
      apply ps_scroll. congruence.
  - destruct (observer (Loop.page w)) as [o |] eqn:O;
      [| split; [exact (ps_same w) | reflexivity]].
    destruct (observing o) eqn:B;
      [| split; [exact (ps_same w) | reflexivity]].
    split; [exact (ps_intersect w b o O B) | reflexivity].
  - destruct (hasUpdated (Loop.page w)) eqn:U;
      [split; [exact (ps_same w) | reflexivity] |].
    split; [exact (ps_update w U) | reflexivity].
  - split; [exact (ps_disconnect w) | reflexivity].
Qed.

Lemma closureOK_step (e : Event) (w : World) :
  closureOK w -> closureOK (step e w).
Proof.
  intros OK. destruct (step_pageStep e w OK) as [_ K].
  apply closureOK_iff. rewrite K. apply closureOK_iff. exact OK.
Qed.

Lemma closure_None_step (e : Event) (w : World) :
  closureOK w -> Loop.closure w = None -> Loop.closure (step e w) = None.
Proof.
  intros OK N. destruct (step_pageStep e w OK) as [_ K].
  apply closure_None_iff. rewrite K. apply closure_None_iff. exact N.
Qed.

Lemma view_removeScrollAndResizeListeners (p : Page) :
  view (removeScrollAndResizeListeners p) = view p.
Proof.
  unfold view. rewrite loads_removeScrollAndResizeListeners.
  destruct (frame_removeScrollAndResizeListeners p)
    as (-> & -> & -> & -> & _). reflexivity.
Qed.

Lemma view_loadImage (p : Page) :
  view (loadImage p)
  = (visibleByDefault p, true, Datatypes.S (loads p), observer p,
     hasUpdated p).
Proof. unfold view. rewrite loads_loadImage. reflexivity. Qed.

Lemma view_observer_disconnect (p : Page) :
  view (observer_disconnect p)
  = (visibleByDefault p, imageVisible p, loads p,
     observe_as false (observer p), hasUpdated p).
Proof.
  unfold view. rewrite loads_observer_disconnect.
  unfold observer_disconnect.
  destruct (observer p) as [o |] eqn:O; cbn; rewrite ?O; reflexivity.
Qed.

Lemma view_firstUpdated (p : Page) :
  view (firstUpdated p)
  = (visibleByDefault p, imageVisible p, loads p,
     observe_as true (observer p), hasUpdated p).
Proof.
  unfold view, firstUpdated.
  destruct (observer p) as [o |] eqn:O; cbn; rewrite ?O; [| reflexivity].
  unfold loads; cbn. rewrite filter_app, length_app; cbn.
  rewrite Nat.add_0_r. reflexivity.
Qed.

Lemma view_disconnectedCallback (p : Page) :
  view (disconnectedCallback p)
  = (visibleByDefault p, imageVisible p, loads p,
     observe_as false (observer p), hasUpdated p).
Proof.
  unfold disconnectedCallback.
  rewrite view_removeScrollAndResizeListeners.
  apply view_observer_disconnect.
Qed.

Lemma view_handleScroll (p : Page) :
  view (handleScroll p) = view p
  \/ (visibleByDefault p = false /\ imageVisible p = false
      /\ view (handleScroll p)
         = (false, true, Datatypes.S (loads p), observer p, hasUpdated p)).
Proof.
  destruct (handleScroll_cases p) as [[E _] | (V & I & _ & E)]; rewrite E.
  - left; reflexivity.
  - right. split; [exact V | split; [exact I |]].
    rewrite view_removeScrollAndResizeListeners, view_loadImage, V.
    reflexivity.
Qed.

End Steps.

(* ================================================================== *)
(** ** Single notification *)
(* ================================================================== *)

Section SingleNotification.

Lemma view_eq (p : Page) a b c d e :
  (visibleByDefault p, imageVisible p, loads p, observer p, hasUpdated p)
  = (a, b, c, d, e) ->
  visibleByDefault p = a /\ imageVisible p = b /\ loads p = c
  /\ observer p = d /\ hasUpdated p = e.
Proof. intros H. inversion H. repeat split. Qed.

Ltac by_view H :=
  unfold view in H; apply view_eq in H;
  let Ev := fresh "Ev" in
  let Ei := fresh "Ei" in
  let El := fresh "El" in
  let Eo := fresh "Eo" in
  let Eu := fresh "Eu" in
  destruct H as (Ev & Ei & El & Eo & Eu);
  rewrite ?Ev, ?Ei, ?El, ?Eo, ?Eu; clear Ev Ei El Eo Eu.

Lemma revealInv_pageStep (vbd : bool) (w : World) (q : Page)
    (closed : Prop) :
  revealInv vbd w -> pageStep w q ->
  (Loop.closure w = None -> closed) ->
  visibleByDefault q = vbd
  /\ if vbd
     then loads q = 0%nat /\ observer q = None
     else ((imageVisible q = false /\ loads q = 0%nat)
           \/ (imageVisible q = true /\ loads q = 1%nat))
          /\ match observer q with
             | None => True
             | Some o =>
                 closed
                 /\ (observing o = true ->
                     imageVisible q = false /\ hasUpdated q = true)
                 /\ (imageVisible q = true -> hasUpdated q = true)
             end.
Proof.
  unfold revealInv. intros (V & OK & R) PS CL.
  set (p := Loop.page w) in *.
  destruct PS as [| NC | l | b o O B | U |].
  - (* nothing *)
    fold p. split; [exact V |]. destruct vbd; [exact R |].
    destruct R as [D M]. split; [exact D |].
    destruct (observer p); [| exact I].
    destruct M as (N & M1 & M2). auto.
  - (* handleScroll *)
    fold p.
    assert (ON : vbd = false -> observer p = None).
    { intros ->. destruct R as [_ M].
      destruct (observer p); [| reflexivity].
      destruct M as (N & _). contradiction. }
    destruct (view_handleScroll p) as [E | (V' & I' & E)]; by_view E.
    + split; [exact V |]. destruct vbd; [exact R |].
      rewrite (ON eq_refl). destruct R as [D _]. split; [exact D | exact I].
    + destruct vbd; [congruence |]. split; [reflexivity |].
      rewrite (ON eq_refl). destruct R as [[[_ L] | [F _]] _];
        [| congruence].
      rewrite L. split; [right; split; reflexivity | exact I].
  - (* layout *)
    change (loads (set_layout l p)) with (loads p).
    cbn [visibleByDefault imageVisible observer hasUpdated set_layout].
    fold p.
    split; [exact V |]. destruct vbd; [exact R |].
    destruct R as [D M]. split; [exact D |].
    destruct (observer p); [| exact I].
    destruct M as (N & M1 & M2). auto.
  - (* observer callback *)
    fold p in O. fold p.
    destruct vbd; [destruct R as [_ F]; congruence |].
    destruct R as [D M]. rewrite O in M. destruct M as (N & M1 & M2).
    destruct (M1 B) as [IV HU].
    destruct b; unfold onIntersection.
    + pose proof (view_observer_disconnect (loadImage p)) as E.
      pose proof (view_loadImage p) as E'. unfold view in E'.
      apply view_eq in E'. destruct E' as (Ev' & Ei' & El' & Eo' & Eu').
      rewrite Ev', Ei', El', Eo', Eu' in E. by_view E.
      split; [exact V |].
      destruct D as [[_ L] | [F _]]; [| congruence].
      rewrite L, O. cbn.
      split; [right; split; reflexivity |].
      split; [auto | split; [discriminate | auto]].
    + split; [exact V |]. split; [exact D |].
      rewrite O. auto.
  - (* first update *)
    fold p in U. fold p.
    pose proof (view_firstUpdated (set_hasUpdated true p)) as E.
    change (visibleByDefault (set_hasUpdated true p))
      with (visibleByDefault p) in E.
    change (imageVisible (set_hasUpdated true p))
      with (imageVisible p) in E.
    change (loads (set_hasUpdated true p)) with (loads p) in E.
    change (observer (set_hasUpdated true p)) with (observer p) in E.
    change (hasUpdated (set_hasUpdated true p)) with true in E.
    by_view E.
    split; [exact V |]. destruct vbd.
    + destruct R as [L O]. rewrite O. auto.
    + destruct R as [D M]. split; [exact D |].
      destruct (observer p) as [o |]; cbn; [| exact I].
      destruct M as (N & M1 & M2).
      split; [auto | split; [| auto]].
      intros _. split; [| reflexivity].
      destruct (imageVisible p) eqn:IV; [| reflexivity].
      rewrite (M2 eq_refl) in U. discriminate U.
  - (* disposal *)
    fold p.
    pose proof (view_disconnectedCallback p) as E. by_view E.
    split; [exact V |]. destruct vbd.
    + destruct R as [L O]. rewrite O. auto.
    + destruct R as [D M]. split; [exact D |].
      destruct (observer p) as [o |]; cbn; [| exact I].
      destruct M as (N & M1 & M2).
      split; [auto | split; [discriminate | auto]].
Qed.

Lemma revealInv_step (vbd : bool) (e : Event) (w : World) :
  revealInv vbd w -> revealInv vbd (step e w).
Proof.
  intros R. pose proof R as (V & OK & _).
  destruct (step_pageStep e w OK) as [PS _].
  destruct (revealInv_pageStep vbd w _ (Loop.closure (step e w) = None)
              R PS (closure_None_step e w OK)) as [V' R'].
  unfold revealInv. split; [exact V' |].
  split; [apply closureOK_step, OK | exact R'].
Qed.

Lemma revealInv_run (vbd : bool) (es : list Event) (w : World) :
  revealInv vbd w -> revealInv vbd (run es w).
Proof.
  revert w. induction es as [| e es IH]; intros w R; [exact R |].
  apply IH, revealInv_step, R.
Qed.

Lemma closureOK_activate (t0 : Z) (p : Page) : closureOK (activate t0 p).
Proof.
  unfold closureOK, activate, connectedCallback.
  cbn [newLoop Loop.page].
  destruct (visibleByDefault p); [exact I |].
  destruct (useIntersectionObserver p && intersectionObserverInWindow p);
    [exact I |].
  unfold initScrollAndResizeHandlers; cbn.
  destruct (String.eqb (delayMethod p) "debounce"); reflexivity.
Qed.

Lemma revealInv_activate (t0 : Z) (p : Page) :
  fresh p ->
  observerSelected p = false \/ isCurrentlyVisible p = false ->
  revealInv (visibleByDefault p) (activate t0 p).
Proof.
  intros (Ho & Hc & Hi & Hs & Hu & Hl & Hg) H.
  assert (L0 : loads p = 0%nat) by (unfold loads; rewrite Hg; reflexivity).
  unfold revealInv. split; [| split; [apply closureOK_activate |]];
    unfold activate, connectedCallback, observerSelected in *;
    cbn [newLoop Loop.page] in *;
    destruct (visibleByDefault p) eqn:V; cbn [negb andb] in *.
  - cbn. unfold handleScroll; cbn. rewrite V; cbn. exact V.
  - destruct (useIntersectionObserver p && intersectionObserverInWindow p).
    + cbn. destruct H as [F | C]; [discriminate F |].
      unfold handleScroll.
      change (isCurrentlyVisible (initialiseObserver p))
        with (isCurrentlyVisible p).
      cbn. rewrite V, Hi, C; cbn. exact V.
    + cbn [Loop.on_page Loop.set_page Loop.page].
      destruct (page_initScrollAndResizeHandlers (newLoop t0 p))
        as (A & B & _). cbn [newLoop Loop.page] in A, B.
      destruct (view_handleScroll
                  (Loop.page (initScrollAndResizeHandlers (newLoop t0 p))))
        as [E | (_ & _ & E)]; by_view E; congruence.
  - cbn. unfold handleScroll; cbn. rewrite V; cbn.
    split; [exact L0 | exact Ho].
  - destruct (useIntersectionObserver p && intersectionObserverInWindow p).
    + cbn. destruct H as [F | C]; [discriminate F |].
      unfold handleScroll.
      change (isCurrentlyVisible (initialiseObserver p))
        with (isCurrentlyVisible p).
      cbn. rewrite V, Hi, C; cbn.
      split; [left; split; [exact Hi | exact L0] |].
      split; [reflexivity | split; [discriminate | congruence]].
    + cbn [Loop.on_page Loop.set_page Loop.page].
      destruct (page_initScrollAndResizeHandlers (newLoop t0 p))
        as (A & B & O & U & L & _). cbn [newLoop Loop.page] in A, B, O, U, L.
      destruct (view_handleScroll
                  (Loop.page (initScrollAndResizeHandlers (newLoop t0 p))))
        as [E | (_ & _ & E)]; by_view E; rewrite ?B, ?O, ?L, ?Ho, ?L0.
      * split; [left; split; [exact Hi | reflexivity] | exact I].
      * split; [right; split; reflexivity | exact I].
Qed.

(** C1 as stated fails: an element that never comes into view is never
    notified, whatever scrolls and resizes; and under the observer
    strategy an element in view at activation is notified by the check at
    activation and again by the observer's first callback. *)
Lemma notification_not_exactly_once :
  loads (Loop.page
           (run [Scrolled Window; Advance 10; TimerFires 1; Resized;
                 TimerFires 2]
              (activate 1700000000000 hiddenPage))) = 0%nat
  /\ loads (Loop.page
              (run [Updated; Intersection true]
                 (activate 1700000000000 observedPage))) = 2%nat.
Proof. split; reflexivity. Qed.

(** C1, amended: for an element under the polling strategy, or under the
    observer strategy and outside the window's viewport at activation, and
    for every sequence of events, [loadImage] is invoked at most once:
    never with [visibleByDefault], and otherwise once exactly when the
    element has been revealed. *)
Theorem single_notification (p : Page) (t0 : Z) (es : list Event) :
  fresh p ->
  observerSelected p = false \/ isCurrentlyVisible p = false ->
  let q := Loop.page (run es (activate t0 p)) in
  (loads q <= 1)%nat
  /\ (visibleByDefault p = true -> loads q = 0%nat)
  /\ (visibleByDefault p = false ->
      (loads q = 1%nat <-> imageVisible q = true)).
Proof.
  intros F H q.
  pose proof (revealInv_run _ es _ (revealInv_activate t0 p F H))
    as (V & _ & R). fold q in V, R.
  destruct (visibleByDefault p).
  - destruct R as [L _]. rewrite L.
    repeat split; try lia; discriminate.
  - destruct R as [[[I L] | [I L]] _]; rewrite L, I;
      repeat split; try lia; try discriminate; auto.
Qed.

Lemma single_notification_witness :
  let q :=
    Loop.page
      (run [Relayout inViewLayout; Scrolled Window; TimerFires 1; Resized;
            TimerFires 2]
         (activate 1700000000000 hiddenPage)) in
  (loads q <= 1)%nat
  /\ (visibleByDefault hiddenPage = true -> loads q = 0%nat)
  /\ (visibleByDefault hiddenPage = false ->
      (loads q = 1%nat <-> imageVisible q = true)).
Proof.
  apply (single_notification hiddenPage 1700000000000).
  - repeat split.
  - left. reflexivity.
Defined.

End SingleNotification.

(* ================================================================== *)
(** ** Disposal *)
(* ================================================================== *)

Section Disposal.

Lemma listenersInv_pageStep (w : World) (q : Page) :
  listenersInv (Loop.page w) -> pageStep w q -> listenersInv q.
Proof.
  intros L PS. set (p := Loop.page w) in *.
  destruct PS as [| NC | l | b o O B | U |]; fold p.
  - exact L.
  - destruct (handleScroll_cases p) as [[E _] | (_ & _ & _ & E)];
      rewrite E; [exact L |].
    left. apply listeners_removed. exact L.
  - exact L.
  - destruct b; [| exact L].
    unfold onIntersection, observer_disconnect.
    destruct (observer (loadImage p)); exact L.
  - unfold firstUpdated.
    destruct (observer (set_hasUpdated true p)); exact L.
  - left. apply listeners_removed.
    unfold observer_disconnect. destruct (observer p); exact L.
Qed.

Lemma listenersInv_activate (t0 : Z) (p : Page) :
  fresh p -> listenersInv (Loop.page (activate t0 p)).
Proof.
  intros (Ho & Hc & Hi & Hs & Hu & Hl & Hg).
  unfold activate, connectedCallback. cbn [newLoop Loop.page].
  assert (HS : forall q, listenersInv q -> listenersInv (handleScroll q)).
  { intros q L.
    destruct (handleScroll_cases q) as [[E _] | (_ & _ & _ & E)];
      rewrite E; [exact L |].
    left. apply listeners_removed. exact L. }
  destruct (visibleByDefault p).
  - apply HS. left. exact Hl.
  - destruct (useIntersectionObserver p && intersectionObserverInWindow p).
    + apply HS. left. exact Hl.
    + apply HS. right.
      unfold initScrollAndResizeHandlers; cbn.
      unfold addEventListener, registered; cbn. rewrite Hl; cbn.
      rewrite andb_false_r; cbn. split; reflexivity.
Qed.

Lemma reachable_inv (t0 : Z) (p : Page) (es : list Event) :
  fresh p ->
  closureOK (run es (activate t0 p))
  /\ listenersInv (Loop.page (run es (activate t0 p))).
Proof.
  intros F.
  assert (G : forall es w, closureOK w /\ listenersInv (Loop.page w) ->
                           closureOK (run es w)
                           /\ listenersInv (Loop.page (run es w))).
  { clear. induction es as [| e es IH]; intros w [OK L]; [auto |].
    apply IH. split; [apply closureOK_step, OK |].
    eapply listenersInv_pageStep; [exact L |].
    apply step_pageStep, OK. }
  apply G. split; [apply closureOK_activate |].
  apply listenersInv_activate, F.
Qed.

Lemma observer_disposed (p : Page) (o : IntersectionObserver) :
  observer (disconnectedCallback p) = Some o -> observing o = false.
Proof.
  unfold disconnectedCallback.
  destruct (frame_removeScrollAndResizeListeners (observer_disconnect p))
    as (_ & _ & -> & _).
  unfold observer_disconnect.
  destruct (observer p) as [o' |] eqn:O; cbn; rewrite ?O; intros H.
  - injection H as <-. reflexivity.
  - discriminate H.
Qed.

(** C3 as stated fails: a debounce timer set by a scroll before the
    disposal is still pending after it, and when it fires it runs the
    check and reveals the element that has come into view meanwhile. *)
Lemma timer_fires_after_disposal :
  let w :=
    run [Scrolled Window; Disconnected]
      (activate 1700000000000 hiddenPage) in
  List.length (Loop.timers w) = 1%nat
  /\ loads (Loop.page w) = 0%nat
  /\ loads (Loop.page (run [Relayout inViewLayout; TimerFires 1] w))
     = 1%nat.
Proof. repeat split. Qed.

(** C3, amended: when [disconnectedCallback] returns, in any state the
    element can be in, no listener of the element is registered, it holds
    no callback and its observer does not observe, so that scroll, resize
    and observer events do nothing; the pending timers and the closure are
    as before the disposal, and a timer that fires afterwards does nothing
    or runs [handleScroll]. *)
Theorem disposal_detaches (p : Page) (t0 : Z) (es : list Event) :
  fresh p ->
  let w := run es (activate t0 p) in
  let w' := step Disconnected w in
  listeners (Loop.page w') = []
  /\ scrollAndResizeCallback (Loop.page w') = None
  /\ (forall o, observer (Loop.page w') = Some o -> observing o = false)
  /\ (forall target, step (Scrolled target) w' = w')
  /\ step Resized w' = w'
  /\ (forall b, step (Intersection b) w' = w')
  /\ Loop.timers w' = Loop.timers w
  /\ Loop.closure w' = Loop.closure w
  /\ (forall id,
         Loop.page (step (TimerFires id) w') = Loop.page w'
         \/ Loop.page (step (TimerFires id) w')
            = handleScroll (Loop.page w')).
Proof.
  intros F w w'. destruct (reachable_inv t0 p es F) as [OK L].
  fold w in OK, L.
  assert (E : Loop.page w' = disconnectedCallback (Loop.page w))
    by reflexivity.
  assert (LE : listeners (Loop.page w') = []).
  { rewrite E. apply listeners_removed.
    unfold observer_disconnect.
    destruct (observer (Loop.page w)); exact L. }
  assert (OB : forall o, observer (Loop.page w') = Some o ->
                         observing o = false).
  { intros o H. rewrite E in H. exact (observer_disposed _ _ H). }
  split; [exact LE |].
  split.
  { rewrite E. unfold disconnectedCallback.
    destruct (frame_removeScrollAndResizeListeners
                (observer_disconnect (Loop.page w)))
      as (_ & _ & _ & _ & _ & C). exact C. }
  split; [exact OB |].
  split.
  { intros target. cbn [step]. unfold registered. rewrite LE.
    reflexivity. }
  split.
  { cbn [step]. unfold registered. rewrite LE. reflexivity. }
  split.
  { intros b. cbn [step].
    destruct (observer (Loop.page w')) as [o |] eqn:O; [| reflexivity].
    rewrite (OB o eq_refl). reflexivity. }
  split; [reflexivity |].
  split; [reflexivity |].
  intros id. cbn [step].
  assert (OK' : closureOK w') by (apply closureOK_step, OK).
  destruct (fire_page id w') as [[X | (l & args & C & X)] _].
  - left. exact X.
  - right. rewrite X. unfold closureOK in OK'. rewrite C in OK'.
    rewrite OK'. reflexivity.
Qed.

Lemma disposal_detaches_witness :
  let w :=
    run [Scrolled Window; Advance 5]
      (activate 1700000000000 hiddenPage) in
  let w' := step Disconnected w in
  listeners (Loop.page w') = []
  /\ step (Scrolled Window) w' = w'
  /\ Loop.timers w' = Loop.timers w.
Proof.
  intros w w'.
  destruct (disposal_detaches hiddenPage 1700000000000
              [Scrolled Window; Advance 5])
    as (A & _ & _ & B & _ & _ & C & _).
  - repeat split.
  - exact (conj A (conj (B Window) C)).
Defined.

Lemma remove_noop (p : Page) :
  scrollAndResizeCallback p = None ->
  removeScrollAndResizeListeners p = p.
Proof.
  intros C. unfold removeScrollAndResizeListeners. rewrite C. reflexivity.
Qed.

Lemma callback_observer_disconnect (p : Page) :
  scrollAndResizeCallback (observer_disconnect p)
  = scrollAndResizeCallback p.
Proof. unfold observer_disconnect. destruct (observer p); reflexivity. Qed.

Lemma set_observer_same (p : Page) : set_observer (observer p) p = p.
Proof. destruct p; reflexivity. Qed.

Lemma unlogged_observer_disconnect (p : Page) :
  unlogged (observer_disconnect p)
  = unlogged (set_observer (observe_as false (observer p)) p).
Proof.
  unfold observer_disconnect.
  destruct (observer p) as [o |] eqn:O; [reflexivity |].
  cbn [observe_as option_map]. rewrite <- O, set_observer_same.
  reflexivity.
Qed.

Lemma observe_as_twice (b : bool) (o : option IntersectionObserver) :
  observe_as b (observe_as b o) = observe_as b o.
Proof. destruct o; reflexivity. Qed.

(** The state after one or more disposals. *)
Lemma disposals_state (n : nat) (p : Page) :
  let q := disposals (Datatypes.S n) p in
  scrollAndResizeCallback q = None
  /\ observer q = observe_as false (observer p)
  /\ unlogged q = unlogged (disconnectedCallback p).
Proof.
  induction n as [| n (C & O & U)].
  - cbn zeta. change (disposals 1 p) with (disconnectedCallback p).
    pose proof (view_disconnectedCallback p) as V. unfold view in V.
    injection V as _ _ _ Ob _.
    split; [| split; [exact Ob | reflexivity]].
    unfold disconnectedCallback.
    destruct (frame_removeScrollAndResizeListeners (observer_disconnect p))
      as (_ & _ & _ & _ & _ & C). exact C.
  - cbn zeta in *.
    change (disposals (Datatypes.S (Datatypes.S n)) p)
      with (disconnectedCallback (disposals (Datatypes.S n) p)).
    set (q := disposals (Datatypes.S n) p) in *.
    assert (E : disconnectedCallback q = observer_disconnect q).
    { unfold disconnectedCallback. apply remove_noop.
      rewrite callback_observer_disconnect. exact C. }
    rewrite E. split; [| split].
    + rewrite callback_observer_disconnect. exact C.
    + pose proof (view_observer_disconnect q) as V. unfold view in V.
      injection V as _ _ _ Ob _.
      rewrite Ob, O. apply observe_as_twice.
    + rewrite unlogged_observer_disconnect, O, observe_as_twice, <- O.
      rewrite set_observer_same. exact U.
Qed.

Lemma unlogged_disposals (n : nat) (p : Page) :
  unlogged (disposals (Datatypes.S n) p)
  = unlogged (disconnectedCallback p).
Proof. apply disposals_state. Qed.

Lemma removes_disposal_disposed (p : Page) :
  scrollAndResizeCallback p = None ->
  filter is_Remove (log (disconnectedCallback p))
  = filter is_Remove (log p)
  /\ scrollAndResizeCallback (disconnectedCallback p) = None.
Proof.
  intros C.
  unfold disconnectedCallback, removeScrollAndResizeListeners,
    observer_disconnect.
  destruct (observer p); cbn; rewrite C; cbn.
  - rewrite filter_app; cbn. rewrite app_nil_r. auto.
  - auto.
Qed.

Lemma removes_disposals (n : nat) (p : Page) :
  filter is_Remove (log (disposals (Datatypes.S n) p))
  = filter is_Remove (log (disconnectedCallback p))
  /\ scrollAndResizeCallback (disposals (Datatypes.S n) p) = None.
Proof.
  induction n as [| n [IH C]].
  - split; [reflexivity |].
    unfold disposals, disconnectedCallback; cbn.
    destruct (frame_removeScrollAndResizeListeners (observer_disconnect p))
      as (_ & _ & _ & _ & _ & C). exact C.
  - change (disposals (Datatypes.S (Datatypes.S n)) p)
      with (disconnectedCallback (disposals (Datatypes.S n) p)).
    destruct (removes_disposal_disposed _ C) as [R C'].
    split; [rewrite R; exact IH | exact C'].
Qed.

(** C6 as stated fails: disposal leaves the debounce timer of an earlier
    scroll pending, once or twice over; and one disposal of an element
    whose scroll parent is the window asks for the removal of the window's
    scroll listener twice. *)
Lemma disposal_keeps_timer :
  let w1 :=
    run [Scrolled Window; Disconnected]
      (activate 1700000000000 hiddenPage) in
  let w2 :=
    run [Scrolled Window; Disconnected; Disconnected]
      (activate 1700000000000 hiddenPage) in
  List.length (Loop.timers w1) = 1%nat
  /\ List.length (Loop.timers w2) = 1%nat
  /\ filter is_Remove (log (Loop.page w1))
     = [RemoveEventListener Window scroll;
        RemoveEventListener Window scroll;
        RemoveEventListener Window resize].
Proof. repeat split. Qed.

(** C6, amended: any number [n >= 1] of disposals leaves the element, up
    to the log of calls, as one disposal does, and asks for no removal
    beyond those of the first; a disposal of an element that holds no
    callback (as after a reveal by the polling check) asks for no removal;
    after it no listener of the element is registered and its observer
    does not observe; the timers are left as they are. *)
Theorem disposal_idempotent :
  (forall (n : nat) (p : Page),
      unlogged (disposals (Datatypes.S n) p)
      = unlogged (disconnectedCallback p)
      /\ filter is_Remove (log (disposals (Datatypes.S n) p))
         = filter is_Remove (log (disconnectedCallback p)))
  /\ (forall p : Page,
         scrollAndResizeCallback p = None ->
         filter is_Remove (log (disconnectedCallback p))
         = filter is_Remove (log p))
  /\ (forall (n : nat) (p : Page) (t0 : Z) (es : list Event),
         fresh p ->
         let q := disposals (Datatypes.S n)
                    (Loop.page (run es (activate t0 p))) in
         listeners q = []
         /\ forall o, observer q = Some o -> observing o = false)
  /\ (forall w : World,
         Loop.timers (step Disconnected w) = Loop.timers w).
Proof.
  split; [| split; [| split]].
  - intros n p. split; [apply unlogged_disposals | apply removes_disposals].
  - intros p C. apply removes_disposal_disposed, C.
  - intros n p t0 es F q. subst q.
    destruct (reachable_inv t0 p es F) as [_ L].
    set (p' := Loop.page (run es (activate t0 p))) in *.
    pose proof (unlogged_disposals n p') as U.
    assert (LE : listeners (disconnectedCallback p') = []).
    { apply listeners_removed. unfold observer_disconnect.
      destruct (observer p'); exact L. }
    split.
    + change (listeners (disposals (Datatypes.S n) p'))
        with (listeners (unlogged (disposals (Datatypes.S n) p'))).
      rewrite U. exact LE.
    + intros o H.
      change (observer (disposals (Datatypes.S n) p'))
        with (observer (unlogged (disposals (Datatypes.S n) p'))) in H.
      rewrite U in H. exact (observer_disposed p' o H).
  - reflexivity.
Qed.

Lemma disposal_idempotent_witness :
  let p :=
    Loop.page
      (run [Scrolled Window] (activate 1700000000000 hiddenPage)) in
  listeners p = [(Window, scroll); (Window, resize)]
  /\ listeners (disposals 3 p) = []
  /\ unlogged (disposals 3 p) = unlogged (disconnectedCallback p).
Proof.
  intro p. split; [reflexivity | split].
  - apply (proj1 (proj2 (proj2 disposal_idempotent)) 2%nat hiddenPage
             1700000000000 [Scrolled Window]).
    repeat split.
  - apply (proj1 disposal_idempotent 2%nat p).
Defined.

End Disposal.

(* ================================================================== *)
(** ** Further properties of the rate limiters *)
(* ================================================================== *)

Section DebounceQuiet.

Context {Args S : Type}.
Implicit Types (w : Loop.t Args S) (callback : Args -> S -> S).

Lemma elapsed_nonneg (ops : list (LoopOp Args)) : 0 <= elapsed ops.
Proof.
  induction ops as [| [a | id | dt] ops IH]; cbn [elapsed]; lia.
Qed.

(** While the one pending timer is not due, waiting and firing leave the
    page, the timer and the closure alone. *)
Lemma idle_before_due (idle : list (LoopOp Args)) w id due task :
  Loop.timers w = [Loop.mkTimer id due task] ->
  noCall idle = true ->
  Loop.now w + elapsed idle < due ->
  Loop.page (execAll idle w) = Loop.page w
  /\ Loop.timers (execAll idle w) = Loop.timers w
  /\ Loop.closure (execAll idle w) = Loop.closure w
  /\ Loop.now (execAll idle w) = Loop.now w + elapsed idle.
Proof.
  revert w. induction idle as [| [a | id' | dt] idle IH]; intros w T N D.
  - cbn. repeat split. lia.
  - discriminate N.
  - cbn [noCall forallb andb] in N. cbn [elapsed] in D |- *.
    pose proof (elapsed_nonneg idle) as P.
    assert (E : Loop.fire id' w = w).
    { unfold Loop.fire, Loop.findTimer. rewrite T. cbn.
      destruct (Pos.eqb id id'); [| reflexivity].
      cbn. destruct (Z.leb_spec due (Loop.now w)); [lia | reflexivity]. }
    cbn [execAll fold_left exec]. rewrite E. apply IH; assumption.
  - cbn [noCall forallb andb] in N. cbn [elapsed] in D |- *.
    cbn [execAll fold_left exec].
    destruct (IH (Loop.advance dt w)) as (A & B & C & E).
    + exact T.
    + exact N.
    + cbn. lia.
    + unfold execAll in A, B, C, E. rewrite A, B, C, E.
      cbn. repeat split. lia.
Qed.

(** X1: under the debounce policy, for every delay and in any state the
    loop can reach, a call runs nothing and leaves one timer pending, which
    holds the call's arguments and is due as many milliseconds after the
    call as [window.setTimeout] makes of the delay (its 32-bit value, 0 when
    that is negative); as long as fewer milliseconds have passed since that
    call the callback does not run, whatever timers the loop tries to run;
    and once they have passed, running the timer invokes the callback once,
    with the arguments of that last call, and empties the queue. *)
Theorem debounce_quiet_period callback (delay t0 : Z) (s : S)
    (ops : list (LoopOp Args)) (args : Args) :
  let w := execAll ops (limited Loop.debounce callback delay t0 s) in
  let w1 := Loop.call args w in
  Loop.timers w1
  = [Loop.mkTimer (Loop.nextTimerId w) (Loop.now w + Loop.timeoutOf delay)
       (Loop.DebounceTask args)]
  /\ Loop.page w1 = Loop.page w
  /\ (forall idle : list (LoopOp Args),
         noCall idle = true ->
         elapsed idle < Loop.timeoutOf delay ->
         Loop.page (execAll idle w1) = Loop.page w)
  /\ (forall dt : N,
         Loop.timeoutOf delay <= Z.of_N dt ->
         Loop.page (Loop.fire (Loop.nextTimerId w) (Loop.advance dt w1))
         = callback args (Loop.page w)
         /\ Loop.timers
              (Loop.fire (Loop.nextTimerId w) (Loop.advance dt w1)) = []).
Proof.
  intros w w1.
  assert (I : debounceInv callback delay w).
  { apply debounceInv_execAll. exists None.
    split; [reflexivity | left; reflexivity]. }
  destruct (debounce_call callback delay w args I) as [P T].
  fold w1 in P, T.
  assert (I1 : debounceInv callback delay w1)
    by (apply (debounceInv_exec callback delay (Call args) w I)).
  assert (N1 : Loop.now w1 = Loop.now w).
  { subst w1. unfold Loop.call. destruct I as (tid & C & _). rewrite C.
    destruct tid; reflexivity. }
  split; [exact T | split; [exact P | split]].
  - intros idle N E.
    destruct (idle_before_due idle w1 _ _ _ T N) as (A & _); [lia |].
    rewrite A. exact P.
  - intros dt D. destruct I1 as (tid & C & _).
    unfold Loop.fire, Loop.findTimer.
    cbn [Loop.advance Loop.set_now Loop.timers Loop.now].
    rewrite T. cbn -[Loop.timeoutOf]. rewrite Pos.eqb_refl.
    cbn -[Loop.timeoutOf].
    destruct (Z.leb_spec (Loop.now w + Loop.timeoutOf delay)
                (Loop.now w1 + Z.of_N dt)) as [_ | F]; [| lia].
    unfold Loop.runTask. cbn -[Loop.timeoutOf]. rewrite C, T.
    cbn -[Loop.timeoutOf]. rewrite Pos.eqb_refl, P. split; reflexivity.
Qed.

End DebounceQuiet.

Lemma debounce_quiet_period_witness :
  let w : Loop.t unit nat :=
    execAll [Call tt; Wait 10; Call tt]
      (limited Loop.debounce counting 300 1700000000000 0%nat) in
  let w1 := Loop.call tt w in
  Loop.page (execAll [Wait 100; Fire 3; Wait 199; Fire 3] w1) = 0%nat
  /\ Loop.page (Loop.fire (Loop.nextTimerId w) (Loop.advance 300 w1))
     = 1%nat.
Proof.
  intros w w1.
  destruct (debounce_quiet_period counting 300 1700000000000 0%nat
              [Call tt; Wait 10; Call tt] tt)
    as (_ & _ & A & B).
  split.
  - apply (A [Wait 100; Fire 3; Wait 199; Fire 3]).
    + reflexivity.
    + vm_compute. reflexivity.
  - apply (B 300%N). vm_compute. discriminate.
Defined.

Section ThrottleTrailing.

Context {Args S : Type}.
Implicit Types (w : Loop.t Args S) (callback : Args -> S -> S).

(** X2: under the throttle policy no call is lost, and a trailing run
    has the arguments of the call that set its timer: in any state the loop
    can reach, a call either runs the callback within the call and leaves
    the queue as it is, or, with no timer pending, sets one timer that
    holds this call's arguments, or, with a timer pending, is dropped and
    leaves that timer as it was set; whatever timer is pending after the
    call, running it at or after its due time invokes the callback once,
    with the arguments the timer holds, and empties the queue. *)
Theorem throttle_no_call_lost callback (delay t0 : Z) (s : S)
    (ops : list (LoopOp Args)) (args : Args) :
  let w := execAll ops (limited Loop.throttle callback delay t0 s) in
  let w' := Loop.call args w in
  ((Loop.page w' = callback args (Loop.page w)
    /\ Loop.timers w' = Loop.timers w)
   \/ (Loop.page w' = Loop.page w
       /\ Loop.timers w = []
       /\ exists due,
            Loop.timers w'
            = [Loop.mkTimer (Loop.nextTimerId w) due
                 (Loop.ThrottleTask args)])
   \/ (Loop.page w' = Loop.page w
       /\ Loop.timers w' = Loop.timers w
       /\ exists id due a,
            Loop.timers w
            = [Loop.mkTimer id due (Loop.ThrottleTask a)]))
  /\ (forall id due a,
         Loop.timers w' = [Loop.mkTimer id due (Loop.ThrottleTask a)] ->
         forall dt : N,
           due <= Loop.now w' + Z.of_N dt ->
           let w'' := Loop.fire id (Loop.advance dt w') in
           Loop.page w'' = callback a (Loop.page w')
           /\ Loop.timers w'' = []).
Proof.
  intros w w'.
  assert (I : throttleInv w).
  { apply throttleInv_execAll. exists callback, delay, 0.
    left. split; reflexivity. }
  assert (G : forall ops w0,
             (exists d l tid,
                 Loop.closure w0 = Some (Loop.Throttle callback d l tid)) ->
             exists d l tid,
               Loop.closure (execAll ops w0)
               = Some (Loop.Throttle callback d l tid)).
  { clear. induction ops as [| op ops IH]; intros w0 H; [exact H |].
    apply IH. destruct H as (d & l & tid & C).
    destruct op as [a | id | dt]; cbn [exec].
    - destruct (call_page a w0) as [_ K]. rewrite C in K. cbn in K.
      destruct (Loop.closure (Loop.call a w0))
        as [[cb' d' t' | cb' d' l' t'] |] eqn:E; cbn in K;
        try discriminate K.
      + unfold Loop.call in E. rewrite C in E.
        destruct (d <=? Loop.now w0 - l); [discriminate E |].
        destruct tid; cbn in E; congruence.
      + injection K as ->. eauto.
    - destruct (fire_page id w0) as [_ K]. rewrite C in K. cbn in K.
      destruct (Loop.closure (Loop.fire id w0))
        as [[cb' d' t' | cb' d' l' t'] |] eqn:E; cbn in K;
        try discriminate K.
      + unfold Loop.fire in E.
        destruct (Loop.findTimer id w0) as [tm |]; [| congruence].
        destruct (Loop.timer_due tm <=? Loop.now w0); [| congruence].
        unfold Loop.runTask in E. cbn in E. rewrite C in E.
        destruct (Loop.timer_task tm); cbn in E; congruence.
      + injection K as ->. eauto.
    - eauto. }
  assert (CB : exists d l tid,
             Loop.closure w = Some (Loop.Throttle callback d l tid)).
  { apply G. exists delay, 0, None. reflexivity. }
  assert (CB' : exists d l tid,
             Loop.closure w' = Some (Loop.Throttle callback d l tid)).
  { exact (G [Call args] w CB). }
  split.
  - destruct CB as (d & l & tid & C).
    destruct I as (cb0 & d0 & l0 & [[C0 T0] | (id & due & a & C0 & T0)]);
      rewrite C in C0; injection C0 as <- <- <- ->.
    + destruct (Z.le_gt_cases d (Loop.now w - l)) as [H | H].
      * left. subst w'.
        rewrite (throttle_call_immediate w _ _ _ _ args C H).
        split; reflexivity.
      * right. left. subst w'.
        rewrite (throttle_call_schedule w _ _ _ args C H).
        split; [reflexivity | split; [exact T0 |]].
        eexists. cbn [Loop.timers]. rewrite T0. reflexivity.
    + destruct (Z.le_gt_cases d (Loop.now w - l)) as [H | H].
      * left. subst w'.
        rewrite (throttle_call_immediate w _ _ _ _ args C H).
        split; reflexivity.
      * right. right. subst w'.
        rewrite (throttle_call_coalesce w _ _ _ _ args C H).
        split; [reflexivity | split; [reflexivity |]].
        exists id, due, a. exact T0.
  - intros id due a T dt D w''. subst w''.
    destruct CB' as (d & l & tid & C).
    rewrite (throttle_fire (Loop.advance dt w') callback d l tid id due a);
      [split; reflexivity | exact C | exact T | cbn; lia].
Qed.

End ThrottleTrailing.

(* ================================================================== *)
(** ** Further properties of the element *)
(* ================================================================== *)

Section Lifecycle.

Ltac view_of H :=
  unfold view in H; apply view_eq in H;
  let Ev := fresh "Ev" in
  let Ei := fresh "Ei" in
  let El := fresh "El" in
  let Eo := fresh "Eo" in
  let Eu := fresh "Eu" in
  destruct H as (Ev & Ei & El & Eo & Eu);
  rewrite ?Ev, ?Ei, ?El, ?Eo, ?Eu; clear Ev Ei El Eo Eu.

Lemma run_app (es1 es2 : list Event) (w : World) :
  run (es1 ++ es2) w = run es2 (run es1 w).
Proof. unfold run. apply fold_left_app. Qed.

Lemma closureOK_run (es : list Event) (w : World) :
  closureOK w -> closureOK (run es w).
Proof.
  revert w. induction es as [| e es IH]; intros w OK; [exact OK |].
  apply IH, closureOK_step, OK.
Qed.

Lemma handleScroll_revealed (p : Page) :
  imageVisible p = true -> handleScroll p = p.
Proof.
  intros I. unfold handleScroll. rewrite I, orb_true_r. reflexivity.
Qed.

Lemma pageStep_monotone (w : World) (q : Page) :
  pageStep w q ->
  (imageVisible (Loop.page w) = true -> imageVisible q = true)
  /\ (loads (Loop.page w) <= loads q)%nat.
Proof.
  intros PS. set (p := Loop.page w) in *.
  destruct PS as [| NC | l | b o O B | U |]; fold p.
  - split; [auto | lia].
  - destruct (view_handleScroll p) as [E | (_ & _ & E)]; view_of E;
      split; auto; lia.
  - split; [auto | reflexivity].
  - destruct b; unfold onIntersection; [| split; [auto | lia]].
    pose proof (view_observer_disconnect (loadImage p)) as E.
    pose proof (view_loadImage p) as E'. unfold view in E'.
    apply view_eq in E'. destruct E' as (Ev' & Ei' & El' & Eo' & Eu').
    rewrite Ev', Ei', El', Eo', Eu' in E. view_of E.
    split; [auto | lia].
  - pose proof (view_firstUpdated (set_hasUpdated true p)) as E.
    change (imageVisible (set_hasUpdated true p))
      with (imageVisible p) in E.
    change (loads (set_hasUpdated true p)) with (loads p) in E.
    view_of E. split; [auto | lia].
  - pose proof (view_disconnectedCallback p) as E. view_of E.
    split; [auto | lia].
Qed.

(** X3: a reveal is for good: along every sequence of events after
    activation a revealed element stays revealed, and the number of
    [loadImage] invocations never goes down. *)
Theorem reveal_irreversible (p : Page) (t0 : Z) (es1 es2 : list Event) :
  let q1 := Loop.page (run es1 (activate t0 p)) in
  let q2 := Loop.page (run (es1 ++ es2) (activate t0 p)) in
  (imageVisible q1 = true -> imageVisible q2 = true)
  /\ (loads q1 <= loads q2)%nat.
Proof.
  intros q1 q2. subst q1 q2. rewrite run_app.
  assert (OK : closureOK (run es1 (activate t0 p)))
    by (apply closureOK_run, closureOK_activate).
  generalize dependent (run es1 (activate t0 p)). clear.
  induction es2 as [| e es IH]; intros w OK;
    unfold run; cbn [fold_left]; [split; [auto | lia] |].
  destruct (step_pageStep e w OK) as [PS _].
  destruct (pageStep_monotone w _ PS) as [A B].
  destruct (IH (step e w) (closureOK_step e w OK)) as [A' B'].
  unfold run in A', B'. split; [auto | lia].
Qed.

(** X12: the check is idempotent: a second [handleScroll] on the same
    layout changes nothing, and on a revealed element [handleScroll] does
    nothing whatever the layout. *)
Theorem handleScroll_idempotent :
  (forall p : Page, handleScroll (handleScroll p) = handleScroll p)
  /\ (forall (p : Page) (l : Layout),
         imageVisible p = true ->
         handleScroll (set_layout l p) = set_layout l p).
Proof.
  split.
  - intros p.
    destruct (handleScroll_cases p) as [[E _] | (_ & _ & _ & E)].
    + rewrite E. exact E.
    + apply handleScroll_revealed. rewrite E.
      destruct (frame_removeScrollAndResizeListeners (loadImage p))
        as (_ & -> & _). reflexivity.
  - intros p l I. apply handleScroll_revealed. exact I.
Qed.

Lemma handleScroll_idempotent_witness :
  let p :=
    Loop.page (step (Relayout inViewLayout)
                 (activate 1700000000000 hiddenPage)) in
  imageVisible (handleScroll p) = true
  /\ handleScroll (set_layout (layout hiddenPage) (handleScroll p))
     = set_layout (layout hiddenPage) (handleScroll p).
Proof.
  intro p. split; [reflexivity |].
  apply (proj2 handleScroll_idempotent (handleScroll p) (layout hiddenPage)).
  reflexivity.
Defined.

(** X13: the observer disposes of itself: whenever the observer observes and
    reports an intersecting entry, the element is revealed, the observer
    stops observing, and every later observer callback does nothing; a
    non-intersecting entry changes nothing. *)
Theorem observer_self_disposal (w : World) (o : IntersectionObserver) :
  observer (Loop.page w) = Some o -> observing o = true ->
  let w' := step (Intersection true) w in
  imageVisible (Loop.page w') = true
  /\ loads (Loop.page w') = Datatypes.S (loads (Loop.page w))
  /\ observer (Loop.page w') = Some (mkObserver (rootMargin o) false)
  /\ (forall b, step (Intersection b) w' = w')
  /\ step (Intersection false) w = w.
Proof.
  intros O B w'. subst w'. cbn [step]. rewrite O, B.
  cbn [Loop.on_page Loop.set_page Loop.page].
  assert (E : observer (onIntersection true (Loop.page w))
              = Some (mkObserver (rootMargin o) false)).
  { unfold onIntersection, observer_disconnect.
    cbn [observer loadImage emit set_log set_imageVisible].
    rewrite O. reflexivity. }
  assert (L : loads (onIntersection true (Loop.page w))
              = Datatypes.S (loads (Loop.page w))).
  { unfold onIntersection. rewrite loads_observer_disconnect.
    apply loads_loadImage. }
  assert (I : imageVisible (onIntersection true (Loop.page w)) = true).
  { unfold onIntersection, observer_disconnect.
    destruct (observer (loadImage (Loop.page w))); reflexivity. }
  split; [exact I | split; [exact L | split; [exact E | split]]].
  - intros b. cbn [step Loop.page]. rewrite E. reflexivity.
  - destruct w; reflexivity.
Qed.

End Lifecycle.

Section Strategies.

Lemma fire_no_timers {Args S : Type} (id : positive) (w : Loop.t Args S) :
  Loop.timers w = [] -> Loop.fire id w = w.
Proof.
  intros T. unfold Loop.fire, Loop.findTimer. rewrite T. reflexivity.
Qed.

Lemma inert_step (e : Event) (w : World) : inert w -> inert (step e w).
Proof.
  intros (V & I & G & L & O & C & K & T).
  destruct e as [dt | id | l | target | | b | |]; cbn [step].
  - repeat split; assumption.
  - rewrite (fire_no_timers id w T). repeat split; assumption.
  - repeat split; assumption.
  - unfold registered. rewrite L. repeat split; assumption.
  - unfold registered. rewrite L. repeat split; assumption.
  - rewrite O. repeat split; assumption.
  - destruct (hasUpdated (Loop.page w)); [repeat split; assumption |].
    unfold inert, firstUpdated; cbn. rewrite O. cbn.
    repeat split; assumption.
  - unfold inert, disconnectedCallback, observer_disconnect; cbn.
    rewrite O. rewrite (remove_noop _ C). repeat split; assumption.
Qed.

(** X4: with [visibleByDefault] the element is revealed at activation
    without any call: [loadImage] is not invoked, no observer and no closure
    are created, no listener is registered and no timer is set; and no
    sequence of events changes any of this. *)
Theorem visible_by_default_inert (p : Page) (t0 : Z) (es : list Event) :
  fresh p -> visibleByDefault p = true ->
  let w := run es (activate t0 p) in
  imageVisible (Loop.page w) = true
  /\ log (Loop.page w) = []
  /\ listeners (Loop.page w) = []
  /\ observer (Loop.page w) = None
  /\ Loop.closure w = None
  /\ Loop.timers w = [].
Proof.
  intros (Ho & Hc & Hi & Hs & Hu & Hl & Hg) V w.
  assert (I0 : inert (activate t0 p)).
  { unfold inert, activate, connectedCallback. cbn [newLoop Loop.page].
    rewrite V. cbn. unfold handleScroll; cbn. rewrite V; cbn.
    repeat split; assumption. }
  assert (G : forall es w0, inert w0 -> inert (run es w0)).
  { clear. induction es as [| e es IH]; intros w0 I; [exact I |].
    apply IH, inert_step, I. }
  destruct (G es _ I0) as (_ & A & B & C & D & _ & E & F).
  repeat split; assumption.
Qed.

Lemma visible_by_default_inert_witness :
  let w :=
    run [Scrolled Window; Resized; Updated; Intersection true; TimerFires 1;
         Disconnected]
      (activate 1700000000000 defaultVisiblePage) in
  imageVisible (Loop.page w) = true
  /\ log (Loop.page w) = []
  /\ listeners (Loop.page w) = []
  /\ observer (Loop.page w) = None
  /\ Loop.closure w = None
  /\ Loop.timers w = [].
Proof.
  apply (visible_by_default_inert defaultVisiblePage 1700000000000).
  - repeat split.
  - reflexivity.
Defined.

Lemma observerOnly_step (t : Q) (e : Event) (w : World) :
  observerOnly t w -> observerOnly t (step e w).
Proof.
  intros (K & T & L & C & S & o & O & R).
  destruct e as [dt | id | l | target | | b | |]; cbn [step].
  - repeat split; try assumption. exists o. auto.
  - rewrite (fire_no_timers id w T).
    repeat split; try assumption. exists o. auto.
  - repeat split; try assumption. exists o. auto.
  - unfold registered. rewrite L.
    repeat split; try assumption. exists o. auto.
  - unfold registered. rewrite L.
    repeat split; try assumption. exists o. auto.
  - rewrite O. destruct (observing o);
      [| repeat split; try assumption; exists o; auto].
    destruct b; [| repeat split; try assumption; exists o; auto].
    unfold observerOnly, onIntersection, observer_disconnect; cbn.
    rewrite O; cbn. repeat split; try assumption.
    eexists. split; [reflexivity | exact R].
  - destruct (hasUpdated (Loop.page w));
      [repeat split; try assumption; exists o; auto |].
    unfold observerOnly, firstUpdated; cbn. rewrite O; cbn.
    repeat split; try assumption.
    eexists. split; [reflexivity | exact R].
  - unfold observerOnly, disconnectedCallback; cbn.
    rewrite remove_noop
      by (rewrite callback_observer_disconnect; exact C).
    unfold observer_disconnect. rewrite O; cbn.
    repeat split; try assumption.
    eexists. split; [reflexivity | exact R].
Qed.

Lemma observer_None_pageStep (w : World) (q : Page) :
  pageStep w q -> observer (Loop.page w) = None -> observer q = None.
Proof.
  intros PS N. set (p := Loop.page w) in *.
  destruct PS as [| NC | l | b o O B | U |]; fold p.
  - exact N.
  - destruct (handleScroll_cases p) as [[E _] | (_ & _ & _ & E)];
      rewrite E; [exact N |].
    destruct (frame_removeScrollAndResizeListeners (loadImage p))
      as (_ & _ & -> & _). exact N.
  - exact N.
  - fold p in O. congruence.
  - unfold firstUpdated. cbn [observer set_hasUpdated]. rewrite N. exact N.
  - unfold disconnectedCallback.
    destruct (frame_removeScrollAndResizeListeners (observer_disconnect p))
      as (_ & _ & -> & _).
    unfold observer_disconnect. rewrite N. exact N.
Qed.

(** X5: the two strategies exclude each other for the whole life of the
    element: under the observer strategy no closure is created, no timer is
    set, no listener is registered, the scroll parent stays the window and
    the observer's root margin is the threshold; under the polling strategy
    (and with [visibleByDefault]) there never is an observer. *)
Theorem strategy_exclusive (p : Page) (t0 : Z) (es : list Event) :
  fresh p ->
  let w := run es (activate t0 p) in
  (observerSelected p = true ->
   Loop.closure w = None
   /\ Loop.timers w = []
   /\ listeners (Loop.page w) = []
   /\ scrollParent (Loop.page w) = Window
   /\ exists o, observer (Loop.page w) = Some o
                /\ rootMargin o = threshold p)
  /\ (observerSelected p = false -> observer (Loop.page w) = None).
Proof.
  intros (Ho & Hc & Hi & Hs & Hu & Hl & Hg) w. split.
  - intros Sel.
    assert (I0 : observerOnly (threshold p) (activate t0 p)).
    { unfold observerSelected in Sel.
      unfold observerOnly, activate, connectedCallback.
      cbn [newLoop Loop.page].
      destruct (visibleByDefault p); [discriminate Sel |].
      cbn [negb andb] in Sel. rewrite Sel.
      cbn [Loop.on_page Loop.set_page Loop.page Loop.closure Loop.timers].
      destruct (handleScroll_cases (initialiseObserver p))
        as [[E _] | (_ & _ & _ & E)]; rewrite E.
      - cbn. repeat split; try assumption.
        eexists. split; reflexivity.
      - rewrite remove_noop by exact Hc. cbn.
        repeat split; try assumption.
        eexists. split; reflexivity. }
    assert (G : forall es w0, observerOnly (threshold p) w0 ->
                              observerOnly (threshold p) (run es w0)).
    { clear. induction es as [| e es IH]; intros w0 I; [exact I |].
      apply IH, observerOnly_step, I. }
    destruct (G es _ I0) as (A & B & C & _ & D & E).
    repeat split; assumption.
  - intros Sel.
    assert (N0 : observer (Loop.page (activate t0 p)) = None).
    { unfold observerSelected in Sel.
      unfold activate, connectedCallback. cbn [newLoop Loop.page].
      assert (HS : forall q, observer q = None ->
                             observer (handleScroll q) = None).
      { intros q N.
        destruct (handleScroll_cases q) as [[E _] | (_ & _ & _ & E)];
          rewrite E; [exact N |].
        destruct (frame_removeScrollAndResizeListeners (loadImage q))
          as (_ & _ & -> & _). exact N. }
      destruct (visibleByDefault p); [apply HS; exact Ho |].
      cbn [negb andb] in Sel. rewrite Sel.
      cbn [Loop.on_page Loop.set_page Loop.page]. apply HS.
      destruct (page_initScrollAndResizeHandlers (newLoop t0 p))
        as (_ & _ & O & _). rewrite O. exact Ho. }
    assert (G : forall es w0, closureOK w0 ->
                              observer (Loop.page w0) = None ->
                              observer (Loop.page (run es w0)) = None).
    { clear. induction es as [| e es IH]; intros w0 OK N; [exact N |].
      apply IH; [apply closureOK_step, OK |].
      eapply observer_None_pageStep; [| exact N].
      apply step_pageStep, OK. }
    apply G; [apply closureOK_activate | exact N0].
Qed.

Lemma strategy_exclusive_witness :
  let w :=
    run [Scrolled Window; Updated; Intersection true; Resized]
      (activate 1700000000000 observedHiddenPage) in
  Loop.closure w = None
  /\ Loop.timers w = []
  /\ listeners (Loop.page w) = []
  /\ scrollParent (Loop.page w) = Window
  /\ exists o, observer (Loop.page w) = Some o
               /\ rootMargin o = threshold observedHiddenPage.
Proof.
  apply (strategy_exclusive observedHiddenPage 1700000000000).
  - repeat split.
  - reflexivity.
Defined.

Lemma observer_self_disposal_witness :
  let w := run [Updated] (activate 1700000000000 observedHiddenPage) in
  imageVisible (Loop.page w) = false
  /\ imageVisible (Loop.page (step (Intersection true) w)) = true
  /\ step (Intersection true) (step (Intersection true) w)
     = step (Intersection true) w.
Proof.
  intro w. split; [reflexivity |].
  destruct (observer_self_disposal w (mkObserver 200 true))
    as (A & _ & _ & B & _).
  - reflexivity.
  - reflexivity.
  - exact (conj A (B true)).
Defined.

End Strategies.

Section Listeners.

Lemma noLeak_pageStep (w : World) (q : Page) :
  pageStep w q ->
  listenersInv (Loop.page w) -> noLeak (Loop.page w) -> noLeak q.
Proof.
  intros PS L NL. set (p := Loop.page w) in *.
  destruct PS as [| NC | l | b o O B | U |]; fold p.
  - exact NL.
  - destruct (handleScroll_cases p) as [[E _] | (_ & _ & _ & E)];
      rewrite E; [exact NL |].
    intros _. split.
    + apply listeners_removed. exact L.
    + destruct (frame_removeScrollAndResizeListeners (loadImage p))
        as (_ & _ & _ & _ & _ & C). exact C.
  - exact NL.
  - fold p in O.
    assert (H : listeners p = [] /\ scrollAndResizeCallback p = None)
      by (apply NL; right; congruence).
    destruct b; [| intros _; exact H].
    unfold onIntersection, observer_disconnect.
    destruct (observer (loadImage p)); intros _; exact H.
  - unfold noLeak, firstUpdated.
    cbn [observer set_hasUpdated].
    destruct (observer p) as [o |] eqn:O; cbn.
    + intros _. apply NL. right. congruence.
    + intros [H | H]; [| contradiction]. apply NL. left. exact H.
  - intros _. split.
    + apply listeners_removed. unfold observer_disconnect.
      destruct (observer p); exact L.
    + unfold disconnectedCallback.
      destruct (frame_removeScrollAndResizeListeners (observer_disconnect p))
        as (_ & _ & _ & _ & _ & C). exact C.
Qed.

Lemma noLeak_activate (t0 : Z) (p : Page) :
  fresh p -> noLeak (Loop.page (activate t0 p)).
Proof.
  intros (Ho & Hc & Hi & Hs & Hu & Hl & Hg).
  unfold activate, connectedCallback. cbn [newLoop Loop.page].
  assert (HS : forall q, listenersInv q -> noLeak q ->
                         noLeak (handleScroll q)).
  { intros q L NL.
    destruct (handleScroll_cases q) as [[E _] | (_ & _ & _ & E)];
      rewrite E; [exact NL |].
    intros _. split.
    - apply listeners_removed. exact L.
    - destruct (frame_removeScrollAndResizeListeners (loadImage q))
        as (_ & _ & _ & _ & _ & C). exact C. }
  destruct (visibleByDefault p).
  - apply HS; [left; exact Hl | intros _; split; assumption].
  - destruct (useIntersectionObserver p && intersectionObserverInWindow p).
    + apply HS; [left; exact Hl | intros _; split; assumption].
    + cbn [Loop.on_page Loop.set_page Loop.page].
      destruct (page_initScrollAndResizeHandlers (newLoop t0 p))
        as (_ & I & O & _). cbn [newLoop Loop.page] in I, O.
      apply HS.
      * right. unfold initScrollAndResizeHandlers; cbn.
        unfold addEventListener, registered; cbn. rewrite Hl; cbn.
        rewrite andb_false_r; cbn. split; reflexivity.
      * intros [F | F]; [congruence |]. rewrite O in F. contradiction.
Qed.

Lemma revealed_step (e : Event) (w : World) :
  closureOK w -> imageVisible (Loop.page w) = true ->
  e <> Disconnected ->
  imageVisible (Loop.page (step e w)) = true
  /\ listeners (Loop.page (step e w)) = listeners (Loop.page w)
  /\ scrollAndResizeCallback (Loop.page (step e w))
     = scrollAndResizeCallback (Loop.page w).
Proof.
  intros OK I NE.
  assert (HS : forall l args,
             Loop.closure w = Some l ->
             callbackOf l args (Loop.page w) = Loop.page w).
  { intros l args C. unfold closureOK in OK. rewrite C in OK. rewrite OK.
    unfold handleScroll. rewrite I, orb_true_r. reflexivity. }
  destruct e as [dt | id | l | target | | b | |]; cbn [step].
  - auto.
  - destruct (fire_page id w) as [[E | (l & args & C & E)] _]; rewrite E;
      rewrite ?(HS l args C); auto.
  - auto.
  - destruct (registered target scroll (Loop.page w)); [| auto].
    destruct (call_page ScrollEvent w) as [[E | (l & C & E)] _];
      rewrite E; rewrite ?(HS l ScrollEvent C); auto.
  - destruct (registered Window resize (Loop.page w)); [| auto].
    destruct (call_page ResizeEvent w) as [[E | (l & C & E)] _];
      rewrite E; rewrite ?(HS l ResizeEvent C); auto.
  - destruct (observer (Loop.page w)) as [o |] eqn:O; [| auto].
    destruct (observing o); [| auto].
    destruct b; [| auto].
    cbn [Loop.on_page Loop.set_page Loop.page].
    unfold onIntersection, observer_disconnect.
    cbn [observer loadImage emit set_log set_imageVisible]. rewrite O.
    auto.
  - destruct (hasUpdated (Loop.page w)); [auto |].
    cbn [Loop.on_page Loop.set_page Loop.page]. unfold firstUpdated.
    cbn [observer set_hasUpdated].
    destruct (observer (Loop.page w)); auto.
  - contradiction.
Qed.

Lemma reconnect_page (w : World) :
  visibleByDefault (Loop.page w) = false ->
  observerSelected (Loop.page w) = false ->
  imageVisible (Loop.page w) = true ->
  listeners (Loop.page w) = [] ->
  closureOK (connectedCallback w)
  /\ imageVisible (Loop.page (connectedCallback w)) = true
  /\ listeners (Loop.page (connectedCallback w))
     = [(getScrollParent (self (Loop.page w)), scroll); (Window, resize)]
  /\ scrollAndResizeCallback (Loop.page (connectedCallback w))
     = Some LimitedCallback.
Proof.
  intros V Sel I L. unfold observerSelected in Sel. rewrite V in Sel.
  cbn [negb andb] in Sel.
  unfold connectedCallback. rewrite V, Sel.
  set (w1 := initScrollAndResizeHandlers w).
  assert (I1 : imageVisible (Loop.page w1) = true).
  { destruct (page_initScrollAndResizeHandlers w) as (_ & B & _).
    fold w1 in B. congruence. }
  assert (L1 : listeners (Loop.page w1)
               = [(getScrollParent (self (Loop.page w)), scroll);
                  (Window, resize)]).
  { subst w1. unfold initScrollAndResizeHandlers; cbn.
    unfold addEventListener, registered; cbn. rewrite L; cbn.
    rewrite andb_false_r; cbn. reflexivity. }
  assert (C1 : scrollAndResizeCallback (Loop.page w1)
               = Some LimitedCallback).
  { subst w1. unfold initScrollAndResizeHandlers; cbn.
    unfold addEventListener.
    repeat match goal with
           | |- context [if ?b then _ else _] => destruct b
           end; reflexivity. }
  assert (K1 : closureOK w1).
  { subst w1. unfold closureOK, initScrollAndResizeHandlers; cbn.
    destruct (String.eqb (delayMethod (Loop.page w)) "debounce");
      reflexivity. }
  clearbody w1.
  cbn [Loop.on_page Loop.set_page Loop.page].
  rewrite (handleScroll_revealed _ I1).
  split; [| split; [exact I1 | split; [exact L1 | exact C1]]].
  unfold closureOK in *. exact K1.
Qed.

(** X6: within one connection no listener outlives the reveal: whatever
    the strategy and whatever timers, layout changes, scroll, resize and
    observer events, updates and disposals follow the activation, a
    revealed element has no scroll or resize listener registered and holds
    no callback.  A re-connection undoes this: [connectedCallback] on a
    revealed element under the polling strategy registers both listeners
    again, [handleScroll] returns at its guard, and the listeners stay
    registered under every later event other than a disposal. *)
Theorem no_listener_after_reveal :
  (forall (p : Page) (t0 : Z) (es : list Event),
      fresh p ->
      let q := Loop.page (run es (activate t0 p)) in
      imageVisible q = true ->
      listeners q = [] /\ scrollAndResizeCallback q = None)
  /\ (forall (w : World) (es : list Event),
         visibleByDefault (Loop.page w) = false ->
         observerSelected (Loop.page w) = false ->
         imageVisible (Loop.page w) = true ->
         listeners (Loop.page w) = [] ->
         noDisconnect es = true ->
         let q := Loop.page (run es (connectedCallback w)) in
         imageVisible q = true
         /\ listeners q
            = [(getScrollParent (self (Loop.page w)), scroll);
               (Window, resize)]
         /\ scrollAndResizeCallback q = Some LimitedCallback).
Proof.
  split.
  - intros p t0 es F q I.
    assert (G : forall es w, closureOK w -> listenersInv (Loop.page w) ->
                             noLeak (Loop.page w) ->
                             noLeak (Loop.page (run es w))).
    { clear. induction es as [| e es IH]; intros w OK L NL; [exact NL |].
      destruct (step_pageStep e w OK) as [PS _].
      apply IH.
      - apply closureOK_step, OK.
      - eapply listenersInv_pageStep; eassumption.
      - eapply noLeak_pageStep; eassumption. }
    apply (G es (activate t0 p)).
    + apply closureOK_activate.
    + apply listenersInv_activate, F.
    + apply noLeak_activate, F.
    + left. exact I.
  - intros w es V Sel I L ND q. subst q.
    destruct (reconnect_page w V Sel I L) as (OK & I1 & L1 & C1).
    assert (G : forall es w0,
               noDisconnect es = true -> closureOK w0 ->
               imageVisible (Loop.page w0) = true ->
               imageVisible (Loop.page (run es w0)) = true
               /\ listeners (Loop.page (run es w0))
                  = listeners (Loop.page w0)
               /\ scrollAndResizeCallback (Loop.page (run es w0))
                  = scrollAndResizeCallback (Loop.page w0)).
    { clear. induction es as [| e es IH]; intros w0 ND OK I1; [auto |].
      cbn [noDisconnect forallb] in ND. apply andb_true_iff in ND.
      destruct ND as [NE ND].
      assert (NE' : e <> Disconnected) by (intros ->; discriminate NE).
      destruct (revealed_step e w0 OK I1 NE') as (A & B & C).
      unfold run in *; cbn [fold_left].
      rewrite <- B, <- C. apply IH; [exact ND | | exact A].
      apply closureOK_step, OK. }
    destruct (G es _ ND OK I1) as (A & B & C).
    rewrite B, C. auto.
Qed.

Lemma no_listener_after_reveal_witness :
  let w :=
    run [Relayout inViewLayout; Resized; TimerFires 1; Disconnected]
      (activate 1700000000000 hiddenPage) in
  let q := Loop.page (run [Scrolled Window; TimerFires 2; Resized]
                        (connectedCallback w)) in
  (imageVisible (Loop.page w) = true /\ listeners (Loop.page w) = [])
  /\ imageVisible q = true
  /\ listeners q = [(Window, scroll); (Window, resize)]
  /\ scrollAndResizeCallback q = Some LimitedCallback.
Proof.
  intros w q. split.
  - split; [reflexivity |].
    apply (proj1 no_listener_after_reveal hiddenPage 1700000000000
             [Relayout inViewLayout; Resized; TimerFires 1; Disconnected]).
    + repeat split.
    + reflexivity.
  - apply (proj2 no_listener_after_reveal w
             [Scrolled Window; TimerFires 2; Resized]); reflexivity.
Defined.

(** X7: the polling strategy at activation: the closure is [debounce] of
    [handleScroll] when [delayMethod] is "debounce" and [throttle] of it for
    every other value, with [delayTime] as delay; an element that the check
    at activation leaves hidden has exactly the scroll listener on its
    resolved scroll parent and the resize listener on the window; an
    element that the check reveals has none, its two listeners having been
    registered and removed again. *)
Theorem polling_registration (p : Page) (t0 : Z) :
  fresh p -> visibleByDefault p = false -> observerSelected p = false ->
  let w := activate t0 p in
  let sp := getScrollParent (self p) in
  Loop.closure w
  = Some ((if String.eqb (delayMethod p) "debounce"
           then Loop.debounce else Loop.throttle)
            (fun _ => handleScroll) (delayTime p))
  /\ Loop.timers w = []
  /\ (isCurrentlyVisible (set_scrollParent sp p) = false ->
      listeners (Loop.page w) = [(sp, scroll); (Window, resize)]
      /\ scrollAndResizeCallback (Loop.page w) = Some LimitedCallback
      /\ log (Loop.page w) = registrations sp)
  /\ (isCurrentlyVisible (set_scrollParent sp p) = true ->
      listeners (Loop.page w) = []
      /\ scrollAndResizeCallback (Loop.page w) = None
      /\ log (Loop.page w)
         = registrations sp
           ++ [LoadImage;
               RemoveEventListener sp scroll;
               RemoveEventListener Window scroll;
               RemoveEventListener Window resize]).
Proof.
  intros (Ho & Hc & Hi & Hs & Hu & Hl & Hg) V Sel w sp.
  unfold observerSelected in Sel. rewrite V in Sel. cbn [negb andb] in Sel.
  subst w. unfold activate, connectedCallback. cbn [newLoop Loop.page].
  rewrite V, Sel.
  set (w1 := initScrollAndResizeHandlers (newLoop t0 p)).
  assert (P1 : Loop.page w1
               = mkPage (threshold p) (useIntersectionObserver p)
                   (visibleByDefault p) (delayMethod p) (delayTime p)
                   (observer p) (Some LimitedCallback) (imageVisible p) sp
                   (self p) (hasUpdated p) (intersectionObserverInWindow p)
                   (layout p) [(sp, scroll); (Window, resize)]
                   (registrations sp)).
  { subst w1. unfold initScrollAndResizeHandlers; cbn.
    unfold addEventListener, registered; cbn. rewrite Hl; cbn.
    rewrite andb_false_r; cbn.
    unfold set_listeners at 1. cbn. rewrite Hg. reflexivity. }
  assert (C1 : isCurrentlyVisible (Loop.page w1)
               = isCurrentlyVisible (set_scrollParent sp p))
    by (rewrite P1; reflexivity).
  assert (K1 : Loop.closure w1
               = Some ((if String.eqb (delayMethod p) "debounce"
                        then Loop.debounce else Loop.throttle)
                         (fun _ => handleScroll) (delayTime p)))
    by reflexivity.
  assert (T1 : Loop.timers w1 = []) by reflexivity.
  clearbody w1.
  cbn [Loop.on_page Loop.set_page Loop.page Loop.closure Loop.timers].
  split; [exact K1 | split; [exact T1 | split]].
  - intros NV.
    unfold handleScroll. rewrite C1, NV, P1; cbn. rewrite V, Hi; cbn.
    repeat split.
  - intros NV.
    unfold handleScroll. rewrite C1, NV, P1; cbn. rewrite V, Hi; cbn.
    rewrite same_target_refl; cbn.
    destruct sp; repeat split.
Qed.

Lemma polling_registration_witness :
  let w := activate 1700000000000 nestedPage in
  Loop.closure w = Some (Loop.debounce (fun _ => handleScroll) 0)
  /\ listeners (Loop.page w) = [(Node innerDiv, scroll); (Window, resize)].
Proof.
  intro w.
  destruct (polling_registration nestedPage 1700000000000)
    as (A & _ & B & _).
  - repeat split.
  - reflexivity.
  - reflexivity.
  - destruct B as (B & _); [reflexivity |].
    exact (conj A B).
Defined.

(** X9: under the observer strategy an element that is inside the window's
    viewport at activation is notified twice: [loadImage] is invoked by the
    check at activation, which leaves the observer in place, and again by
    the observer's first intersecting callback after the first update. *)
Theorem observer_double_notification (p : Page) (t0 : Z) :
  fresh p -> observerSelected p = true -> isCurrentlyVisible p = true ->
  loads (Loop.page (activate t0 p)) = 1%nat
  /\ loads (Loop.page (run [Updated; Intersection true] (activate t0 p)))
     = 2%nat.
Proof.
  intros (Ho & Hc & Hi & Hs & Hu & Hl & Hg) Sel C.
  unfold observerSelected in Sel.
  destruct (visibleByDefault p) eqn:V; [discriminate Sel |].
  cbn [negb andb] in Sel.
  assert (A : Loop.page (activate t0 p) = loadImage (initialiseObserver p)).
  { unfold activate, connectedCallback. cbn [newLoop Loop.page].
    rewrite V, Sel. cbn [Loop.on_page Loop.set_page Loop.page].
    rewrite handleScroll_reveals; [apply remove_noop; exact Hc | | |];
      assumption. }
  assert (L1 : loads (Loop.page (activate t0 p)) = 1%nat).
  { rewrite A, loads_loadImage. unfold loads; cbn. rewrite Hg.
    reflexivity. }
  split; [exact L1 |].
  unfold run; cbn [fold_left].
  set (w := activate t0 p) in *.
  assert (U : hasUpdated (Loop.page w) = false) by (rewrite A; exact Hu).
  assert (O : observer (Loop.page w)
              = Some (mkObserver (threshold p) false))
    by (rewrite A; reflexivity).
  set (w2 := step Updated w).
  assert (P2 : Loop.page w2
               = firstUpdated (set_hasUpdated true (Loop.page w)))
    by (subst w2; cbn [step]; rewrite U; reflexivity).
  pose proof (view_firstUpdated (set_hasUpdated true (Loop.page w))) as E.
  unfold view in E. apply view_eq in E. destruct E as (_ & _ & El & Eo & _).
  change (loads (set_hasUpdated true (Loop.page w)))
    with (loads (Loop.page w)) in El.
  change (observer (set_hasUpdated true (Loop.page w)))
    with (observer (Loop.page w)) in Eo.
  rewrite O in Eo. cbn [observe_as option_map rootMargin] in Eo.
  rewrite <- P2 in El, Eo. clearbody w2.
  cbn [step]. rewrite Eo. cbn [observing].
  cbn [Loop.on_page Loop.set_page Loop.page].
  unfold onIntersection.
  rewrite loads_observer_disconnect, loads_loadImage, El, L1. reflexivity.
Qed.

Lemma observer_double_notification_witness :
  loads (Loop.page (activate 1700000000000 observedPage)) = 1%nat
  /\ loads (Loop.page
              (run [Updated; Intersection true]
                 (activate 1700000000000 observedPage))) = 2%nat.
Proof.
  apply (observer_double_notification observedPage 1700000000000).
  - repeat split.
  - reflexivity.
  - reflexivity.
Defined.

(** X10: an element whose scroll parent is an element does not listen to
    the window's scroll: in every state it can reach, a scroll event at the
    window changes nothing, not even a timer. *)
Theorem window_scroll_ignored (p : Page) (t0 : Z) (es : list Event)
    (e : HTMLElement) :
  fresh p ->
  let w := run es (activate t0 p) in
  scrollParent (Loop.page w) = Node e ->
  step (Scrolled Window) w = w.
Proof.
  intros F w S. destruct (reachable_inv t0 p es F) as [_ L]. fold w in L.
  cbn [step]. unfold registered.
  destruct L as [-> | [_ ->]]; [reflexivity |].
  rewrite S. reflexivity.
Qed.

Lemma window_scroll_ignored_witness :
  let w := run [Resized; Advance 5] (activate 1700000000000 nestedPage) in
  scrollParent (Loop.page w) = Node innerDiv
  /\ step (Scrolled Window) w = w.
Proof.
  intro w. split; [reflexivity |].
  apply (window_scroll_ignored nestedPage 1700000000000
           [Resized; Advance 5] innerDiv).
  - repeat split.
  - reflexivity.
Defined.

End Listeners.

Section ThresholdAndPolling.

Lemma handleScroll_set_threshold (t : Q) (p : Page) :
  handleScroll (set_threshold t p) = set_threshold t (handleScroll p).
Proof.
  unfold handleScroll.
  cbn [visibleByDefault imageVisible set_threshold].
  destruct (visibleByDefault p || imageVisible p); [reflexivity |].
  change (isCurrentlyVisible (set_threshold t p))
    with (isCurrentlyVisible p).
  destruct (isCurrentlyVisible p); [| reflexivity].
  unfold removeScrollAndResizeListeners.
  cbn [scrollAndResizeCallback loadImage emit set_log set_imageVisible
       set_threshold].
  destruct (scrollAndResizeCallback p); reflexivity.
Qed.

Lemma call_on_page {Args S : Type} (f : S -> S) (a : Args)
    (w : Loop.t Args S) :
  (forall l, Loop.closure w = Some l ->
             forall a s, callbackOf l a (f s) = f (callbackOf l a s)) ->
  Loop.call a (Loop.on_page f w) = Loop.on_page f (Loop.call a w).
Proof.
  intros H. destruct w as [n tm nx cl pg]. unfold Loop.call. cbn.
  destruct cl as [[cb d tid | cb d last tid] |]; [| | reflexivity].
  - destruct tid; reflexivity.
  - destruct (d <=? n - last).
    + cbn. unfold Loop.on_page, Loop.set_page; cbn.
      pose proof (H _ eq_refl a pg) as E. cbn in E. rewrite E.
      reflexivity.
    + destruct tid; reflexivity.
Qed.

Lemma fire_on_page {Args S : Type} (f : S -> S) (id : positive)
    (w : Loop.t Args S) :
  (forall l, Loop.closure w = Some l ->
             forall a s, callbackOf l a (f s) = f (callbackOf l a s)) ->
  Loop.fire id (Loop.on_page f w) = Loop.on_page f (Loop.fire id w).
Proof.
  intros H. destruct w as [n tm nx cl pg]. unfold Loop.fire, Loop.findTimer.
  cbn. destruct (find _ tm) as [t |]; [| reflexivity].
  destruct (Loop.timer_due t <=? n); [| reflexivity].
  unfold Loop.runTask; cbn.
  destruct (Loop.timer_task t) as [a | a];
    destruct cl as [[cb d tid | cb d last tid] |]; try reflexivity;
    unfold Loop.on_page, Loop.set_page; cbn;
    pose proof (H _ eq_refl a pg) as E; cbn in E; rewrite E; reflexivity.
Qed.

Lemma closureOK_commutes (t : Q) (w : World) :
  closureOK w ->
  forall l, Loop.closure w = Some l ->
            forall a s,
              callbackOf l a (set_threshold t s)
              = set_threshold t (callbackOf l a s).
Proof.
  intros OK l C a s. unfold closureOK in OK. rewrite C in OK. rewrite OK.
  apply handleScroll_set_threshold.
Qed.

Lemma step_withThreshold (t : Q) (e : Event) (w : World) :
  closureOK w ->
  step e (withThreshold t w) = withThreshold t (step e w).
Proof.
  intros OK. unfold withThreshold.
  destruct e as [dt | id | l | target | | b | |]; cbn [step].
  - reflexivity.
  - apply fire_on_page, closureOK_commutes, OK.
  - reflexivity.
  - change (registered target scroll
              (Loop.page (Loop.on_page (set_threshold t) w)))
      with (registered target scroll (Loop.page w)).
    destruct (registered target scroll (Loop.page w)); [| reflexivity].
    apply call_on_page, closureOK_commutes, OK.
  - change (registered Window resize
              (Loop.page (Loop.on_page (set_threshold t) w)))
      with (registered Window resize (Loop.page w)).
    destruct (registered Window resize (Loop.page w)); [| reflexivity].
    apply call_on_page, closureOK_commutes, OK.
  - cbn [Loop.page Loop.on_page Loop.set_page observer set_threshold].
    destruct (observer (Loop.page w)) as [o |] eqn:O; [| reflexivity].
    destruct (observing o); [| reflexivity].
    destruct b; [| reflexivity].
    unfold onIntersection, observer_disconnect, Loop.on_page, Loop.set_page.
    cbn. rewrite O. reflexivity.
  - cbn [Loop.page Loop.on_page Loop.set_page hasUpdated set_threshold].
    destruct (hasUpdated (Loop.page w)); [reflexivity |].
    unfold firstUpdated, Loop.on_page, Loop.set_page. cbn.
    destruct (observer (Loop.page w)); reflexivity.
  - unfold disconnectedCallback, removeScrollAndResizeListeners,
      observer_disconnect, Loop.on_page, Loop.set_page. cbn.
    destruct (observer (Loop.page w)); cbn;
      destruct (scrollAndResizeCallback (Loop.page w)); reflexivity.
Qed.

Lemma addEventListener_set_threshold (t : Q) target type (p : Page) :
  addEventListener target type (set_threshold t p)
  = set_threshold t (addEventListener target type p).
Proof.
  unfold addEventListener.
  change (registered target type
            (emit (AddEventListener target type) (set_threshold t p)))
    with (registered target type (emit (AddEventListener target type) p)).
  destruct (registered target type (emit (AddEventListener target type) p));
    reflexivity.
Qed.

Lemma world_ext {Args S : Type} (a b : Loop.t Args S) :
  Loop.now a = Loop.now b -> Loop.timers a = Loop.timers b ->
  Loop.nextTimerId a = Loop.nextTimerId b ->
  Loop.closure a = Loop.closure b -> Loop.page a = Loop.page b ->
  a = b.
Proof.
  destruct a, b; cbn; intros; subst; reflexivity.
Qed.

Lemma initPage_set_threshold (t1 t2 : Q) (t0 : Z) (p : Page) :
  Loop.page (initScrollAndResizeHandlers (newLoop t0 (set_threshold t2 p)))
  = set_threshold t2
      (Loop.page
         (initScrollAndResizeHandlers (newLoop t0 (set_threshold t1 p)))).
Proof.
  unfold initScrollAndResizeHandlers.
  cbn [Loop.page Loop.set_page Loop.set_closure newLoop].
  rewrite <- !addEventListener_set_threshold. reflexivity.
Qed.

Lemma activate_withThreshold (t1 t2 : Q) (t0 : Z) (p : Page) :
  observerSelected p = false ->
  activate t0 (set_threshold t2 p)
  = withThreshold t2 (activate t0 (set_threshold t1 p)).
Proof.
  intros Sel. unfold observerSelected in Sel.
  unfold withThreshold, activate, connectedCallback.
  cbn [newLoop Loop.page visibleByDefault useIntersectionObserver
       intersectionObserverInWindow set_threshold].
  destruct (visibleByDefault p).
  - unfold Loop.on_page, Loop.set_page; cbn.
    rewrite <- handleScroll_set_threshold. reflexivity.
  - cbn [negb andb] in Sel. rewrite Sel.
    apply world_ext; try reflexivity.
    cbn [Loop.on_page Loop.set_page Loop.page].
    rewrite <- handleScroll_set_threshold.
    rewrite <- (initPage_set_threshold t1 t2 t0 p). reflexivity.
Qed.

(** X8: under the polling strategy (and with [visibleByDefault]) the
    threshold is ignored altogether: two elements that differ in their
    threshold only go, under the same sequence of events, through worlds that
    differ in the threshold field only: the same calls are logged, the same
    timers are set and the element is revealed at the same moments. *)
Theorem threshold_ignored_by_polling (p : Page) (t0 : Z) (t1 t2 : Q)
    (es : list Event) :
  observerSelected p = false ->
  run es (activate t0 (set_threshold t2 p))
  = withThreshold t2 (run es (activate t0 (set_threshold t1 p))).
Proof.
  intros Sel. rewrite (activate_withThreshold t1 t2 t0 p Sel).
  assert (OK : closureOK (activate t0 (set_threshold t1 p)))
    by apply closureOK_activate.
  generalize dependent (activate t0 (set_threshold t1 p)). clear.
  induction es as [| e es IH]; intros w OK; [reflexivity |].
  unfold run in *; cbn [fold_left].
  rewrite (step_withThreshold t2 e w OK).
  apply IH, closureOK_step, OK.
Qed.

Lemma threshold_ignored_by_polling_witness :
  run [Relayout inViewLayout; Scrolled Window; TimerFires 1]
    (activate 1700000000000 (set_threshold 200 hiddenPage))
  = withThreshold 200
      (run [Relayout inViewLayout; Scrolled Window; TimerFires 1]
         (activate 1700000000000 (set_threshold 0 hiddenPage))).
Proof.
  apply (threshold_ignored_by_polling hiddenPage 1700000000000 0 200).
  reflexivity.
Defined.

End ThresholdAndPolling.

Section OverflowTest.

Local Open Scope string_scope.

Lemma prefix_spec (pat s : string) :
  String.prefix pat s = true <-> exists post, s = pat ++ post.
Proof.
  revert s. induction pat as [| c pat IH]; intros s.
  - split; [intros _; exists s; reflexivity |].
    intros _. destruct s; reflexivity.
  - destruct s as [| d s]; cbn;
      [split; [discriminate | intros [post E]; discriminate E] |].
    destruct (Ascii.ascii_dec c d) as [-> | N].
    + rewrite IH. split; intros [post E]; exists post.
      * rewrite E. reflexivity.
      * injection E as E. exact E.
    + split; [discriminate |].
      intros [post E]. injection E as E1 E2. congruence.
Qed.

Lemma includes_spec (pat s : string) :
  includes pat s = true <-> exists pre post, s = pre ++ pat ++ post.
Proof.
  induction s as [| c s IH]; cbn [includes].
  - destruct (String.prefix pat EmptyString) eqn:P.
    + split; [intros _ | reflexivity].
      apply prefix_spec in P. destruct P as [post E].
      exists EmptyString, post. exact E.
    + split; [discriminate |].
      intros (pre & post & E).
      assert (X : String.prefix pat EmptyString = true).
      { apply prefix_spec. destruct pre; [| discriminate E].
        exists post. exact E. }
      congruence.
  - destruct (String.prefix pat (String c s)) eqn:P.
    + split; [intros _ | reflexivity].
      apply prefix_spec in P. destruct P as [post E].
      exists EmptyString, post. exact E.
    + rewrite IH. split.
      * intros (pre & post & E). exists (String c pre), post.
        rewrite E. reflexivity.
      * intros (pre & post & E). destruct pre as [| d pre].
        -- assert (X : String.prefix pat (String c s) = true)
             by (apply prefix_spec; exists post; exact E).
           congruence.
        -- injection E as _ E. exists pre, post. exact E.
Qed.

Lemma append_assoc (a b c : string) : (a ++ b) ++ c = a ++ b ++ c.
Proof. induction a as [| x a IH]; cbn; [reflexivity | rewrite IH; reflexivity]. Qed.

Lemma includes_app_l (pat a b : string) :
  includes pat a = true -> includes pat (a ++ b) = true.
Proof.
  rewrite !includes_spec. intros (pre & post & ->).
  exists pre, (post ++ b). rewrite !append_assoc. reflexivity.
Qed.

Lemma includes_app_r (pat a b : string) :
  includes pat b = true -> includes pat (a ++ b) = true.
Proof.
  rewrite !includes_spec. intros (pre & post & ->).
  exists (a ++ pre), post. rewrite !append_assoc. reflexivity.
Qed.

Lemma auto_or_scroll_app_l (a b : string) :
  auto_or_scroll a = true -> auto_or_scroll (a ++ b) = true.
Proof.
  unfold auto_or_scroll. rewrite !orb_true_iff.
  intros [H | H]; [left | right]; apply includes_app_l, H.
Qed.

Lemma auto_or_scroll_app_r (a b : string) :
  auto_or_scroll b = true -> auto_or_scroll (a ++ b) = true.
Proof.
  unfold auto_or_scroll. rewrite !orb_true_iff.
  intros [H | H]; [left | right]; apply includes_app_r, H.
Qed.

(** X11: the test [/(auto|scroll)/.test(...)] holds of a string exactly
    when the string contains "auto" or "scroll"; and for arbitrary style
    strings, an ancestor one of whose three overflow properties matches is
    matched by the test of their concatenation that [getScrollParent]
    applies. *)
Theorem overflow_test_sound :
  (forall s : string,
      auto_or_scroll s = true
      <-> exists pre post,
            s = pre ++ "auto" ++ post \/ s = pre ++ "scroll" ++ post)
  /\ (forall e : HTMLElement,
         scrollable e = true -> matchesOverflow e = true).
Proof.
  split.
  - intros s. unfold auto_or_scroll.
    rewrite orb_true_iff, !includes_spec. split.
    + intros [(pre & post & E) | (pre & post & E)]; exists pre, post; auto.
    + intros (pre & post & [E | E]); [left | right]; exists pre, post; exact E.
  - intros e. unfold scrollable, matchesOverflow.
    rewrite !orb_true_iff. intros [[H | H] | H].
    + apply auto_or_scroll_app_l, H.
    + apply auto_or_scroll_app_r, auto_or_scroll_app_l, H.
    + apply auto_or_scroll_app_r, auto_or_scroll_app_r, H.
Qed.

Lemma overflow_test_sound_witness :
  scrollable innerDiv = true /\ matchesOverflow innerDiv = true.
Proof.
  split; [reflexivity |].
  apply (proj2 overflow_test_sound innerDiv). reflexivity.
Defined.

Lemma scrollParentFrom_matches (parent : HTMLElement) :
  scrollParentFrom parent
  = match find matchesOverflow (chainFrom parent) with
    | Some a => Node a
    | None => Window
    end.
Proof.
  induction parent as [i h style | i h style up IH] using HTMLElement_ind;
    cbn [scrollParentFrom chainFrom find];
    unfold matchesOverflow at 1; cbn [getComputedStyle];
    destruct (auto_or_scroll _); auto.
Qed.

Lemma find_first {A : Type} (f : A -> bool) (l : list A) (a : A) :
  find f l = Some a ->
  exists pre post,
    l = (pre ++ a :: post)%list /\ f a = true
    /\ forall b, In b pre -> f b = false.
Proof.
  induction l as [| x l IH]; cbn; [discriminate |].
  destruct (f x) eqn:F.
  - intros E. injection E as <-. exists [], l.
    split; [reflexivity | split; [exact F | intros b []]].
  - intros E. destruct (IH E) as (pre & post & -> & Fa & N).
    exists (x :: pre), post.
    split; [reflexivity | split; [exact Fa |]].
    intros b [<- | I]; [exact F | apply N, I].
Qed.

(** X14: whatever the style strings, [getScrollParent] returns the window
    exactly when no ancestor passes the test, and then no ancestor has
    "auto" or "scroll" in any of its overflow properties; an element it
    returns is an ancestor that passes the test and all nearer ancestors
    fail it. *)
Theorem nearest_match_any_styles (element : HTMLElement) :
  (getScrollParent element = Window
   <-> forall a, In a (ancestors element) -> matchesOverflow a = false)
  /\ (getScrollParent element = Window ->
      forall a, In a (ancestors element) -> scrollable a = false)
  /\ (forall a, getScrollParent element = Node a ->
                exists nearer farther,
                  ancestors element = (nearer ++ a :: farther)%list
                  /\ matchesOverflow a = true
                  /\ forall b, In b nearer -> matchesOverflow b = false).
Proof.
  assert (E : getScrollParent element
              = match find matchesOverflow (ancestors element) with
                | Some a => Node a
                | None => Window
                end).
  { unfold getScrollParent, ancestors.
    destruct (parentElement element); [| reflexivity].
    apply scrollParentFrom_matches. }
  assert (W : getScrollParent element = Window
              <-> forall a, In a (ancestors element) ->
                            matchesOverflow a = false).
  { rewrite E. destruct (find matchesOverflow (ancestors element)) eqn:F.
    - split; [discriminate |]. intros N.
      apply find_some in F. destruct F as [I M].
      rewrite (N _ I) in M. discriminate M.
    - split; [| reflexivity]. intros _ a I.
      exact (find_none _ _ F a I). }
  split; [exact W | split].
  - intros H a I. pose proof (proj1 W H a I) as H'. clear H.
    rename H' into H.
    destruct (scrollable a) eqn:S; [| reflexivity].
    unfold scrollable, matchesOverflow in *.
    rewrite !orb_true_iff in S.
    destruct S as [[S | S] | S].
    + rewrite (auto_or_scroll_app_l _ _ S) in H. discriminate H.
    + rewrite (auto_or_scroll_app_r _ _ (auto_or_scroll_app_l _ _ S)) in H.
      discriminate H.
    + rewrite (auto_or_scroll_app_r _ _ (auto_or_scroll_app_r _ _ S)) in H.
      discriminate H.
  - intros a H. rewrite E in H.
    destruct (find matchesOverflow (ancestors element)) eqn:F;
      [| discriminate H].
    injection H as ->. apply find_first. exact F.
Qed.

End OverflowTest.

Lemma reveal_irreversible_witness :
  let q1 :=
    Loop.page
      (run [Relayout inViewLayout; Resized; TimerFires 1]
         (activate 1700000000000 hiddenPage)) in
  let q2 :=
    Loop.page
      (run ([Relayout inViewLayout; Resized; TimerFires 1]
            ++ [Relayout (layout hiddenPage); Scrolled Window; Disconnected])
         (activate 1700000000000 hiddenPage)) in
  imageVisible q1 = true /\ imageVisible q2 = true.
Proof.
  intros q1 q2. split; [reflexivity |].
  apply (proj1 (reveal_irreversible hiddenPage 1700000000000
                  [Relayout inViewLayout; Resized; TimerFires 1]
                  [Relayout (layout hiddenPage); Scrolled Window;
                   Disconnected])).
  reflexivity.
Defined.

Lemma nearest_match_any_styles_witness :
  getScrollParent nestedImg = Node innerDiv
  /\ exists nearer farther,
       ancestors nestedImg = nearer ++ innerDiv :: farther
       /\ matchesOverflow innerDiv = true
       /\ forall b, In b nearer -> matchesOverflow b = false.
Proof.
  split; [reflexivity |].
  apply (proj2 (proj2 (nearest_match_any_styles nestedImg)) innerDiv).
  reflexivity.
Defined.

Lemma throttle_no_call_lost_witness :
  let w := execAll [Call tt; Wait 10] (throttled300 1700000000000) in
  let w' := Loop.call tt w in
  Loop.page w' = 1%nat
  /\ Loop.page (Loop.fire 1 (Loop.advance 290 w')) = 2%nat.
Proof.
  intros w w'. split; [reflexivity |].
  destruct (throttle_no_call_lost counting 300 1700000000000 0%nat
              [Call tt; Wait 10] tt) as [_ H].
  destruct (H 1%positive 1700000000300 tt) with (dt := 290%N) as [P _].
  - reflexivity.
  - vm_compute. discriminate.
  - exact P.
Defined.

(* ================================================================== *)
(** ** From an event to the reveal *)
(* ================================================================== *)

Section Liveness.

Lemma call_now {Args S : Type} (a : Args) (w : Loop.t Args S) :
  Loop.now (Loop.call a w) = Loop.now w.
Proof.
  unfold Loop.call.
  destruct (Loop.closure w) as [[cb d tid | cb d last tid] |];
    [destruct tid; reflexivity | | reflexivity].
  destruct (d <=? Loop.now w - last); [reflexivity |].
  destruct tid; reflexivity.
Qed.

Lemma debounce_fire {Args S : Type} (w : Loop.t Args S) callback delay
    timerId id due (a : Args) :
  Loop.closure w = Some (Loop.Debounce callback delay timerId) ->
  Loop.timers w = [Loop.mkTimer id due (Loop.DebounceTask a)] ->
  due <= Loop.now w ->
  Loop.page (Loop.fire id w) = callback a (Loop.page w)
  /\ Loop.timers (Loop.fire id w) = [].
Proof.
  intros C T D. unfold Loop.fire, Loop.findTimer. rewrite T. cbn.
  rewrite Pos.eqb_refl. cbn.
  destruct (Z.leb_spec due (Loop.now w)) as [_ | F]; [| lia].
  unfold Loop.runTask. cbn. rewrite C, T. cbn. rewrite Pos.eqb_refl.
  split; reflexivity.
Qed.

Lemma debounceInv_step callback (delay : Z) (e : Event) (w : World) :
  debounceInv callback delay w -> debounceInv callback delay (step e w).
Proof.
  intros I. destruct e as [dt | id | l | target | | b | |]; cbn [step].
  - exact (debounceInv_exec callback delay (Wait dt) w I).
  - exact (debounceInv_exec callback delay (Fire id) w I).
  - exact I.
  - destruct (registered target scroll (Loop.page w)); [| exact I].
    exact (debounceInv_exec callback delay (Call ScrollEvent) w I).
  - destruct (registered Window resize (Loop.page w)); [| exact I].
    exact (debounceInv_exec callback delay (Call ResizeEvent) w I).
  - destruct (observer (Loop.page w)) as [o |]; [| exact I].
    destruct (observing o); exact I.
  - destruct (hasUpdated (Loop.page w)); exact I.
  - exact I.
Qed.

Lemma heldInv_pageStep (w : World) (q : Page) :
  pageStep w q -> heldInv (Loop.page w) -> heldInv q.
Proof.
  intros PS (O & V & H). set (p := Loop.page w) in *.
  destruct PS as [| NC | l | b o Ob B | U |]; fold p.
  - repeat split; auto; apply H; assumption.
  - destruct (handleScroll_cases p) as [[E _] | (_ & _ & _ & E)];
      rewrite E; [split; [exact O | split; [exact V | exact H]] |].
    destruct (frame_removeScrollAndResizeListeners (loadImage p))
      as (Fv & _ & Fo & _ & _ & Fc).
    split; [rewrite Fo; exact O | split; [rewrite Fv; exact V |]].
    rewrite Fc. discriminate.
  - split; [exact O | split; [exact V | exact H]].
  - fold p in Ob. congruence.
  - unfold firstUpdated. cbn [observer set_hasUpdated]. rewrite O.
    split; [exact O | split; [exact V | exact H]].
  - unfold disconnectedCallback.
    assert (E : observer_disconnect p = p)
      by (unfold observer_disconnect; rewrite O; reflexivity).
    rewrite E.
    destruct (frame_removeScrollAndResizeListeners p)
      as (Fv & _ & Fo & _ & _ & Fc).
    split; [rewrite Fo; exact O | split; [rewrite Fv; exact V |]].
    rewrite Fc. discriminate.
Qed.

Lemma heldInv_activate (t0 : Z) (p : Page) :
  fresh p -> visibleByDefault p = false -> observerSelected p = false ->
  heldInv (Loop.page (activate t0 p)).
Proof.
  intros (Ho & Hc & Hi & Hs & Hu & Hl & Hg) V Sel.
  unfold observerSelected in Sel. rewrite V in Sel. cbn [negb andb] in Sel.
  unfold activate, connectedCallback. cbn [newLoop Loop.page].
  rewrite V, Sel. cbn [Loop.on_page Loop.set_page Loop.page].
  set (w1 := initScrollAndResizeHandlers (newLoop t0 p)).
  assert (H1 : heldInv (Loop.page w1)).
  { destruct (page_initScrollAndResizeHandlers (newLoop t0 p))
      as (A & B & C & _). fold w1 in A, B, C.
    cbn [newLoop Loop.page] in A, B, C.
    split; [congruence | split; [congruence |]].
    intros _. split; [| congruence].
    subst w1. unfold initScrollAndResizeHandlers; cbn.
    unfold addEventListener, registered; cbn. rewrite Hl; cbn.
    rewrite andb_false_r; cbn. reflexivity. }
  clearbody w1.
  assert (PS : pageStep (Loop.set_closure
                           (Some (Loop.debounce (fun _ => handleScroll) 0))
                           w1)
                 (handleScroll (Loop.page w1))).
  { apply (ps_scroll (Loop.set_closure _ w1)). discriminate. }
  exact (heldInv_pageStep _ _ PS H1).
Qed.

Lemma reachable_held (t0 : Z) (p : Page) (es : list Event) :
  fresh p -> visibleByDefault p = false -> observerSelected p = false ->
  heldInv (Loop.page (run es (activate t0 p))).
Proof.
  intros F V Sel.
  assert (G : forall es w, closureOK w -> heldInv (Loop.page w) ->
                           heldInv (Loop.page (run es w))).
  { clear. induction es as [| e es IH]; intros w OK H; [exact H |].
    apply IH; [apply closureOK_step, OK |].
    eapply heldInv_pageStep; [| exact H].
    apply step_pageStep, OK. }
  apply G; [apply closureOK_activate | apply heldInv_activate; assumption].
Qed.

Lemma resize_registered (p : Page) :
  listeners p = [(scrollParent p, scroll); (Window, resize)] ->
  registered Window resize p = true
  /\ registered (scrollParent p) scroll p = true.
Proof.
  intros L. unfold registered. rewrite L. cbn.
  rewrite andb_false_r, same_target_refl. cbn. split; reflexivity.
Qed.

Lemma reveal_facts (p : Page) :
  heldInv p -> scrollAndResizeCallback p = Some LimitedCallback ->
  isCurrentlyVisible p = true ->
  imageVisible (handleScroll p) = true
  /\ loads (handleScroll p) = Datatypes.S (loads p)
  /\ listeners (handleScroll p) = [].
Proof.
  intros (O & V & H) C Vis. destruct (H C) as [L I].
  rewrite (handleScroll_reveals p V I Vis).
  destruct (frame_removeScrollAndResizeListeners (loadImage p))
    as (_ & Fi & _).
  split; [rewrite Fi; reflexivity | split].
  - rewrite loads_removeScrollAndResizeListeners. apply loads_loadImage.
  - apply listeners_removed. right. split; [exact C | exact L].
Qed.

(** X15: under the polling strategy with the debounce policy, a hidden
    element that still holds its callback and is now in view is revealed
    by a resize event once the timer's delay has passed ([delayTime] as
    [window.setTimeout] reads it): the event itself and the wait leave it
    hidden, and the timer the event set, when it runs, invokes [loadImage]
    once, removes the listeners and leaves no timer. *)
Theorem debounced_check_reveals (p : Page) (t0 : Z) (es : list Event)
    (dt : N) :
  fresh p -> visibleByDefault p = false -> observerSelected p = false ->
  delayMethod p = "debounce"%string ->
  let w := run es (activate t0 p) in
  scrollAndResizeCallback (Loop.page w) = Some LimitedCallback ->
  isCurrentlyVisible (Loop.page w) = true ->
  Loop.timeoutOf (delayTime p) <= Z.of_N dt ->
  let w1 := run [Resized; Advance dt] w in
  let w2 := step (TimerFires (Loop.nextTimerId w)) w1 in
  imageVisible (Loop.page w1) = false
  /\ imageVisible (Loop.page w2) = true
  /\ loads (Loop.page w2) = Datatypes.S (loads (Loop.page w))
  /\ listeners (Loop.page w2) = []
  /\ Loop.timers w2 = [].
Proof.
  intros F V Sel DM w C Vis D w1 w2.
  pose proof (reachable_held t0 p es F V Sel) as H. fold w in H.
  assert (DI : debounceInv (fun _ : DOMEvent => handleScroll)
                 (delayTime p) w).
  { assert (G : forall es w0,
               debounceInv (fun _ : DOMEvent => handleScroll)
                 (delayTime p) w0 ->
               debounceInv (fun _ : DOMEvent => handleScroll)
                 (delayTime p) (run es w0)).
    { clear. induction es as [| e es IH]; intros w0 I; [exact I |].
      apply IH, debounceInv_step, I. }
    apply G. exists None.
    unfold observerSelected in Sel. rewrite V in Sel.
    cbn [negb andb] in Sel.
    unfold activate, connectedCallback. cbn [newLoop Loop.page].
    rewrite V, Sel. unfold initScrollAndResizeHandlers; cbn.
    rewrite DM. cbn. split; [reflexivity | left; reflexivity]. }
  destruct H as (O & Vw & Hh). destruct (Hh C) as [L I].
  destruct (resize_registered _ L) as [R _].
  set (wc := Loop.call ResizeEvent w).
  assert (E1 : step Resized w = wc) by (cbn [step]; rewrite R; reflexivity).
  destruct (debounce_call _ _ w ResizeEvent DI) as [Pc Tc]. fold wc in Pc, Tc.
  assert (DIc : debounceInv (fun _ : DOMEvent => handleScroll)
                  (delayTime p) wc)
    by exact (debounceInv_exec _ _ (Call ResizeEvent) w DI).
  destruct DIc as (tid & Cc & _).
  assert (Nc : Loop.now wc = Loop.now w) by apply call_now.
  assert (W1 : w1 = Loop.advance dt wc).
  { subst w1. unfold run; cbn [fold_left]. rewrite E1. reflexivity. }
  destruct (debounce_fire (Loop.advance dt wc) _ _ tid
              (Loop.nextTimerId w)
              (Loop.now w + Loop.timeoutOf (delayTime p))
              ResizeEvent Cc Tc) as [Pf Tf].
  { cbn. lia. }
  assert (W2 : w2 = Loop.fire (Loop.nextTimerId w) (Loop.advance dt wc))
    by (subst w2; rewrite W1; reflexivity).
  rewrite W2, W1.
  change (Loop.page (Loop.advance dt wc)) with (Loop.page wc) in *.
  rewrite Pf, Pc.
  destruct (reveal_facts (Loop.page w)
              (conj O (conj Vw Hh)) C Vis) as (A & B & G).
  repeat split; assumption.
Qed.

Lemma debounced_check_reveals_witness :
  let w := run [Relayout inViewLayout] (activate 1700000000000 hiddenPage) in
  let w1 := run [Resized; Advance 0] w in
  let w2 := step (TimerFires (Loop.nextTimerId w)) w1 in
  imageVisible (Loop.page w1) = false
  /\ imageVisible (Loop.page w2) = true
  /\ loads (Loop.page w2) = Datatypes.S (loads (Loop.page w))
  /\ listeners (Loop.page w2) = []
  /\ Loop.timers w2 = [].
Proof.
  apply (debounced_check_reveals hiddenPage 1700000000000
           [Relayout inViewLayout] 0).
  - repeat split.
  - reflexivity.
  - reflexivity.
  - reflexivity.
  - reflexivity.
  - reflexivity.
  - cbn. lia.
Defined.

(** X16: under the polling strategy with the throttle policy, a hidden
    element that still holds its callback and is now in view is revealed
    within a resize or scroll event that arrives once the throttle window
    has passed: [loadImage] is invoked once and the listeners are gone when
    the event returns. *)
Theorem throttled_check_reveals (p : Page) (t0 : Z) (es : list Event)
    callback (delay lastCall : Z) (timeoutId : option positive) :
  fresh p -> visibleByDefault p = false -> observerSelected p = false ->
  let w := run es (activate t0 p) in
  scrollAndResizeCallback (Loop.page w) = Some LimitedCallback ->
  isCurrentlyVisible (Loop.page w) = true ->
  Loop.closure w = Some (Loop.Throttle callback delay lastCall timeoutId) ->
  delay <= Loop.now w - lastCall ->
  forall e,
    e = Resized \/ e = Scrolled (scrollParent (Loop.page w)) ->
    imageVisible (Loop.page (step e w)) = true
    /\ loads (Loop.page (step e w)) = Datatypes.S (loads (Loop.page w))
    /\ listeners (Loop.page (step e w)) = [].
Proof.
  intros F V Sel w C Vis K D e He.
  pose proof (reachable_held t0 p es F V Sel) as H. fold w in H.
  assert (OK : closureOK w)
    by (apply closureOK_run, closureOK_activate).
  unfold closureOK in OK. rewrite K in OK. cbn in OK. subst callback.
  pose proof H as (O & Vw & Hh). destruct (Hh C) as [L I].
  destruct (resize_registered _ L) as [R1 R2].
  assert (E : forall a, Loop.page (Loop.call a w)
                        = handleScroll (Loop.page w)).
  { intros a. rewrite (throttle_call_immediate w _ _ _ _ a K D).
    reflexivity. }
  assert (P : Loop.page (step e w) = handleScroll (Loop.page w)).
  { destruct He as [-> | ->]; cbn [step]; rewrite ?R1, ?R2; apply E. }
  rewrite P. apply reveal_facts; assumption.
Qed.

Lemma throttled_check_reveals_witness :
  let p :=
    newPage 0 false false "throttle" 300
      (Element 0 true (mkStyle EmptyString EmptyString EmptyString) None)
      false
      (mkLayout (mkRect 400 0 500 50) (mkRect 0 0 0 0) 300 100) in
  let w := run [Relayout inViewLayout] (activate 1700000000000 p) in
  imageVisible (Loop.page w) = false
  /\ imageVisible (Loop.page (step Resized w)) = true
  /\ listeners (Loop.page (step Resized w)) = [].
Proof.
  intros p w. split; [reflexivity |].
  destruct (throttled_check_reveals p 1700000000000 [Relayout inViewLayout]
              (fun _ => handleScroll) 300 0 None) with (e := Resized)
    as (A & _ & B).
  - repeat split.
  - reflexivity.
  - reflexivity.
  - reflexivity.
  - reflexivity.
  - reflexivity.
  - cbn. lia.
  - left. reflexivity.
  - exact (conj A B).
Defined.

End Liveness.
